(** * PraisonAIPPT: text segmenter, highlight span merger and document builder

    A shallow embedding of the text-processing core of the slide generator:

    - [split_long_text]    (src/app.py, src/create_bible_verses_presentation.py)
    - [_apply_highlights]  (src/pptx_bible_verses/core.py)
    - [create_presentation] (src/pptx_bible_verses/core.py)

    A Python [str] is a list of characters, integers are [Z], and a call
    that can raise returns a [result].  The paragraph of the presentation
    library (python-pptx) is the list of its runs and line breaks. *)

From Stdlib Require Import Ascii String DecimalString.
From Stdlib Require Import List ZArith Lia Bool Sorted Permutation.
Import ListNotations.
Open Scope Z_scope.

(** ** Python string primitives *)

Module PyStr.

Definition str := list ascii.

(** String literals. *)
Definition py (s : string) : str := list_ascii_of_string s.

(** The empty string. *)
Definition empty_str : str := [].

(** [len(s)] *)
Definition len {A : Type} (s : list A) : Z := Z.of_nat (length s).

(** Truth value of a string: [if s:]. *)
Definition truthy {A : Type} (s : list A) : bool :=
  match s with
  | [] => false
  | _ :: _ => true
  end.

(** [str.isspace] of one character (code points below 256): the ASCII
    controls 9-13 and 28-31, the space, NEL (133) and the no-break space (160). *)
Definition isspace (c : ascii) : bool :=
  let n := N_of_ascii c in
  (((9 <=? n) && (n <=? 13)) || ((28 <=? n) && (n <=? 32)) || (n =? 133) || (n =? 160))%N.

(** [s.startswith(p)] *)
Fixpoint starts_with (p s : str) : bool :=
  match p, s with
  | [], _ => true
  | _ :: _, [] => false
  | a :: p', b :: s' => Ascii.eqb a b && starts_with p' s'
  end.

(** [s.endswith(p)] *)
Definition ends_with (p s : str) : bool := starts_with (rev p) (rev s).

(** [s.replace(old, new)] for a non-empty [old]: occurrences are replaced
    from left to right and do not overlap.  [skip] counts the characters of
    [s] still covered by the occurrence replaced last. *)
Fixpoint replace_from (old new : str) (skip : nat) (s : str) : str :=
  match s with
  | [] => []
  | c :: rest =>
      match skip with
      | S k => replace_from old new k rest
      | O =>
          if starts_with old s
          then new ++ replace_from old new (length old - 1) rest
          else c :: replace_from old new 0 rest
      end
  end.

Definition replace (old new s : str) : str := replace_from old new 0 s.

(** [s.split(sep)] for a one-character separator: never the empty list. *)
Fixpoint split (sep : ascii) (s : str) : list str :=
  match s with
  | [] => [[]]
  | c :: rest =>
      if Ascii.eqb c sep then [] :: split sep rest
      else match split sep rest with
           | h :: t => (c :: h) :: t
           | [] => [[c]]
           end
  end.

(** [s.lstrip()], [s.rstrip()], [s.strip()] *)
Fixpoint lstrip (s : str) : str :=
  match s with
  | [] => []
  | c :: rest => if isspace c then lstrip rest else s
  end.

Definition rstrip (s : str) : str := rev (lstrip (rev s)).

Definition strip (s : str) : str := rstrip (lstrip s).

(** [s[a:b]] for [0 <= a]; empty when [b <= a]. *)
Definition slice {A : Type} (s : list A) (a b : Z) : list A :=
  firstn (Z.to_nat (b - a)) (skipn (Z.to_nat a) s).

(** The exceptions the code can raise: [d[key]] on a missing key and
    [l[i]] past the end of a sequence. *)
Inductive exn : Type :=
| KeyError (key : str)
| IndexError.

(** A computation that returns a value or raises. *)
Inductive result (A : Type) : Type :=
| Ok (a : A)
| Raise (e : exn).

Arguments Ok {A} a.
Arguments Raise {A} e.

Definition bind {A B : Type} (r : result A) (k : A -> result B) : result B :=
  match r with
  | Ok a => k a
  | Raise e => Raise e
  end.

Notation "x <- r ;; k" := (bind r (fun x => k))
  (at level 61, r at next level, right associativity).

(** A [for] loop whose body may raise. *)
Fixpoint for_each {A S : Type} (body : S -> A -> result S) (l : list A)
  (s : S) : result S :=
  match l with
  | [] => Ok s
  | a :: l' => s' <- body s a ;; for_each body l' s'
  end.

End PyStr.

(** ** Text segmenter: [split_long_text] *)

Module Segmenter.
Import PyStr.

(** [text.replace('. ', '.|').replace('! ', '!|').replace('? ', '?|').split('|')] *)
Definition mark_sentences (text : str) : str :=
  replace (py "? ") (py "?|")
    (replace (py "! ") (py "!|")
       (replace (py ". ") (py ".|") text)).

Definition sentences_of (text : str) : list str :=
  split "|"%char (mark_sentences text).

(** One round of [for sentence in sentences:], on the pair
    [(parts, current_part)]. *)
Definition loop_step (max_length : Z) (st : list str * str) (sentence : str)
  : list str * str :=
  let '(parts, current_part) := st in
  if len (current_part ++ sentence) <=? max_length
  then (parts, current_part ++ sentence)
  else ((if truthy current_part then parts ++ [strip current_part] else parts),
        sentence).

(** The loop followed by the last [if current_part: parts.append(...)]. *)
Definition split_parts (text : str) (max_length : Z) : list str :=
  let '(parts, current_part) :=
    fold_left (loop_step max_length) (sentences_of text)
      (@nil str, @nil ascii : str) in
  if truthy current_part then parts ++ [strip current_part] else parts.

Definition split_long_text (text : str) (max_length : Z) : list str :=
  if len text <=? max_length then [text]
  else match split_parts text max_length with
       | [] => [text]
       | parts => parts
       end.

(** [max_length=200] *)
Definition default_max_length : Z := 200.

(** The characters of [s] that are not whitespace, in order. *)
Definition nonspace_chars (s : str) : str :=
  filter (fun c => negb (isspace c)) s.

(** The chunks of one call, joined, keep the characters of [text] that are
    not whitespace. *)
Definition rejoin_preserves (text : str) (max_length : Z) : Prop :=
  nonspace_chars (concat (split_long_text text max_length)) =
  nonspace_chars text.

(** What holds of [(parts, current_part)] throughout the loop: every part
    emitted so far is within the bound or a trimmed long unit, and the part
    being built is empty, within the bound, or one long unit. *)
Definition loop_inv (units : list str) (max_length : Z)
  (st : list str * str) : Prop :=
  Forall (fun chunk =>
            len chunk <= max_length \/
            exists unit, In unit units /\ len unit > max_length /\
                         chunk = strip unit) (fst st) /\
  (snd st = [] \/ len (snd st) <= max_length \/
   (In (snd st) units /\ len (snd st) > max_length)).

(** Neither whitespace nor the sentence mark. *)
Definition kept (c : ascii) : bool :=
  negb (isspace c) && negb (Ascii.eqb c "|"%char).

(** The text with ['|'] in place of every space that follows a character
    satisfying [p]; [prev] tells whether the character before the head of
    [s] satisfies [p]. *)
Fixpoint mark_after (p : ascii -> bool) (prev : bool) (s : str) : str :=
  match s with
  | [] => []
  | c :: rest =>
      (if prev && Ascii.eqb c " "%char then "|"%char else c)
      :: mark_after p (p c) rest
  end.

(** One of the three punctuation marks that end a sentence unit. *)
Definition is_end_mark (c : ascii) : bool :=
  Ascii.eqb "."%char c || Ascii.eqb "!"%char c || Ascii.eqb "?"%char c.

Definition add_to_first (c : ascii) (units : list str) : list str :=
  match units with
  | h :: t => (c :: h) :: t
  | [] => [[c]]
  end.

(** The sentence units as the specification describes them: the text is
    cut at every [". "], ["! "] and ["? "], the punctuation mark stays with
    the unit before it and the space is dropped.  A ['|'] is a character
    like any other. *)
Fixpoint spec_units (text : str) : list str :=
  match text with
  | [] => [[]]
  | c :: rest =>
      match rest with
      | sp :: rest' =>
          if is_end_mark c && Ascii.eqb sp " "%char
          then [c] :: spec_units rest'
          else add_to_first c (spec_units rest)
      | [] => [[c]]
      end
  end.

(** The length bound on every chunk of one call, over the units of the
    specification. *)
Definition spec_length_bound (text : str) (max_length : Z) : Prop :=
  forall chunk,
    In chunk (split_long_text text max_length) ->
    len chunk <= max_length \/
    exists unit, In unit (spec_units text) /\ len unit > max_length /\
                 (chunk = unit \/ chunk = strip unit).

(** What the last [if current_part:] leaves of a state of the loop. *)
Definition emitted (st : list str * str) : list str :=
  if truthy (snd st) then fst st ++ [strip (snd st)] else fst st.

End Segmenter.

(** ** Highlight span merger: [_apply_highlights] *)

Module Merger.
Import PyStr.

(** Lower case of one character (code points below 256), the folding
    [re.IGNORECASE] applies to a [str] pattern: A-Z and the Latin-1 capitals
    192-222 other than the multiplication sign 215. *)
Definition lower (c : ascii) : ascii :=
  let n := N_of_ascii c in
  if (((65 <=? n) && (n <=? 90)) ||
      ((192 <=? n) && (n <=? 222) && negb (n =? 215)))%N
  then ascii_of_N (n + 32)
  else c.

(** Two characters that match under [re.IGNORECASE]. *)
Definition ascii_ieq (a b : ascii) : bool := Ascii.eqb (lower a) (lower b).

(** The characters at which the presentation library breaks the text
    assigned to a paragraph: the line feed (10) and the vertical tab (11). *)
Definition ascii_line_break (c : ascii) : bool :=
  let n := N_of_ascii c in ((n =? 10) || (n =? 11))%N.

Section Highlights.

(** The merger is generic in the character type, in the case-insensitive
    comparison of two characters, which belongs to the [re] module, and in
    the characters that break a line, which belong to the presentation
    library. *)
Context {ch : Type}.
Variable ieq : ch -> ch -> bool.
Variable line_break : ch -> bool.

(** A match as the tuple [(match.start(), match.end(), match.group())]. *)
Definition Match : Type := Z * Z * list ch.

Definition m_start (m : Match) : Z := fst (fst m).
Definition m_end (m : Match) : Z := snd (fst m).
Definition m_group (m : Match) : list ch := snd m.

(** The font set on a run: the highlight format (24 pt, bold, orange), the
    plain format (24 pt, black), or none of its own, when the run takes the
    font of its paragraph. *)
Inductive Format : Type :=
| Highlight
| Plain
| Inherited.

(** A run of the paragraph: the string it was given, the font set on it,
    and the character range of [text] the string was cut from. *)
Record Run : Type := mkRun {
  run_start : Z;
  run_end : Z;
  run_text : list ch;
  run_format : Format
}.

(** The content of a paragraph of the presentation library: runs, and line
    breaks, each standing for the character of [text] at [position]. *)
Inductive Element : Type :=
| RunElement (r : Run)
| BreakElement (position : Z).

(** The escaped pattern matches at the head of [s]: literally, character by
    character, case folded. *)
Fixpoint match_here (pattern s : list ch) : bool :=
  match pattern, s with
  | [], _ => true
  | _ :: _, [] => false
  | p :: pattern', c :: s' => ieq p c && match_here pattern' s'
  end.

(** [re.finditer(re.escape(highlight), text, re.IGNORECASE)] scanning [rest],
    the text from position [pos] on: matches are found from left to right and
    the scan resumes at the end of a match; [skip] counts the characters still
    covered by the last match.  An empty pattern matches, with zero width, at
    every position up to and including the end of the text. *)
Fixpoint finditer_from (pattern : list ch) (skip : nat) (pos : Z)
  (rest : list ch) : list Match :=
  match rest with
  | [] =>
      match skip, pattern with
      | O, [] => [(pos, pos, [])]
      | _, _ => []
      end
  | _ :: rest' =>
      match skip with
      | S k => finditer_from pattern k (pos + 1) rest'
      | O =>
          if match_here pattern rest
          then (pos, pos + len pattern, firstn (length pattern) rest)
                 :: finditer_from pattern (length pattern - 1) (pos + 1) rest'
          else finditer_from pattern 0 (pos + 1) rest'
      end
  end.

Definition finditer (pattern text : list ch) : list Match :=
  finditer_from pattern 0 0 text.

(** [for highlight in highlights: for match in re.finditer(...): matches.append(...)] *)
Definition find_matches (text : list ch) (highlights : list (list ch))
  : list Match :=
  flat_map (fun highlight => finditer highlight text) highlights.

(** [matches.sort(key=lambda x: x[0])]: a stable sort on the start position. *)
Fixpoint insert_by_start (m : Match) (l : list Match) : list Match :=
  match l with
  | [] => [m]
  | h :: t =>
      if m_start m <=? m_start h then m :: h :: t
      else h :: insert_by_start m t
  end.

Definition sort_by_start (l : list Match) : list Match :=
  fold_right insert_by_start [] l.

(** One round of the overlap filter, on [(filtered_matches, last_end)]. *)
Definition filter_step (st : list Match * Z) (m : Match) : list Match * Z :=
  let '(filtered_matches, last_end) := st in
  let '(start, end_, matched_text) := m in
  if start >=? last_end
  then (filtered_matches ++ [(start, end_, matched_text)], end_)
  else (filtered_matches, last_end).

Definition filter_overlaps (matches : list Match) : list Match :=
  fst (fold_left filter_step matches ([], -1)).

(** A piece of the text assigned to a paragraph becomes a run unless it is
    empty. *)
Definition piece_run (start end_ : Z) (piece : list ch) : list Element :=
  match piece with
  | [] => []
  | _ :: _ => [RunElement (mkRun start end_ piece Inherited)]
  end.

(** The content the library gives a paragraph for the text assigned to it:
    the text is split at every line feed and vertical tab, a line break
    stands between two pieces, and each piece that is not empty is a run.
    [piece] is the piece being read, which began at [start]; [pos] is the
    position of the head of [t]. *)
Fixpoint text_elements (start pos : Z) (piece t : list ch) : list Element :=
  match t with
  | [] => piece_run start pos piece
  | c :: t' =>
      if line_break c
      then piece_run start pos piece
           ++ BreakElement pos :: text_elements (pos + 1) (pos + 1) [] t'
      else text_elements start (pos + 1) (piece ++ [c]) t'
  end.

(** [paragraph.text = t], for [t] cut from position [start] of [text]: the
    earlier content of the paragraph is removed. *)
Definition set_text (start : Z) (t : list ch) : list Element :=
  text_elements start start [] t.

(** [paragraph.runs]: line breaks are no runs. *)
Fixpoint runs (paragraph : list Element) : list Run :=
  match paragraph with
  | [] => []
  | RunElement r :: paragraph' => r :: runs paragraph'
  | BreakElement _ :: paragraph' => runs paragraph'
  end.

Definition with_format (f : Format) (r : Run) : Run :=
  mkRun (run_start r) (run_end r) (run_text r) f.

(** [run = paragraph.runs[0]] followed by the font assignments on [run]:
    an [IndexError] when the paragraph has no run. *)
Fixpoint format_first_run (f : Format) (paragraph : list Element)
  : result (list Element) :=
  match paragraph with
  | [] => Raise IndexError
  | RunElement r :: paragraph' => Ok (RunElement (with_format f r) :: paragraph')
  | BreakElement b :: paragraph' =>
      paragraph' <- format_first_run f paragraph' ;;
      Ok (BreakElement b :: paragraph')
  end.

(** [paragraph.text = t; run = paragraph.runs[0]] when [first_run], else
    [run = paragraph.add_run(); run.text = t]; then the font of [run] is
    set.  [r] holds [t], the range it was cut from and the font. *)
Definition put_run (paragraph : list Element) (first_run : bool) (r : Run)
  : result (list Element) :=
  if first_run
  then format_first_run (run_format r) (set_text (run_start r) (run_text r))
  else Ok (paragraph ++ [RunElement r]).

(** One round of [for start, end, matched_text in filtered_matches:], on
    [(paragraph, current_pos, first_run)]. *)
Definition build_step (text : list ch) (st : list Element * Z * bool)
  (m : Match) : result (list Element * Z * bool) :=
  let '(paragraph, current_pos, first_run) := st in
  let '(start, end_, matched_text) := m in
  st' <- (if start >? current_pos
          then paragraph <- put_run paragraph first_run
                              (mkRun current_pos start
                                 (slice text current_pos start) Plain) ;;
               Ok (paragraph, false)
          else Ok (paragraph, first_run)) ;;
  let '(paragraph, first_run) := st' in
  paragraph <- put_run paragraph first_run
                 (mkRun start end_ matched_text Highlight) ;;
  Ok (paragraph, end_, false).

(** [_apply_highlights(paragraph, text, highlights)]: the content of the
    paragraph afterwards, or the exception raised.  When no match is kept
    the text is assigned to the paragraph and the font is set on the
    paragraph itself, so that no run has a font of its own. *)
Definition _apply_highlights (paragraph : list Element) (text : list ch)
  (highlights : list (list ch)) : result (list Element) :=
  let matches := sort_by_start (find_matches text highlights) in
  let filtered_matches := filter_overlaps matches in
  match filtered_matches with
  | [] => Ok (set_text 0 text)
  | _ :: _ =>
      st <- for_each (build_step text) filtered_matches (paragraph, 0, true) ;;
      let '(paragraph, current_pos, _) := st in
      if current_pos <? len text
      then Ok (paragraph ++
               [RunElement (mkRun current_pos (len text)
                              (slice text current_pos (len text)) Plain)])
      else Ok paragraph
  end.

(** A span [{start, end, isHighlighted}] and the spans of the runs of a
    paragraph. *)
Definition Span : Type := Z * Z * bool.

Definition is_highlight (f : Format) : bool :=
  match f with
  | Highlight => true
  | _ => false
  end.

Definition span_of (r : Run) : Span :=
  (run_start r, run_end r, is_highlight (run_format r)).

(** The merger on a fresh paragraph. *)
Definition computeSpans (text : list ch) (highlights : list (list ch))
  : result (list Span) :=
  paragraph <- _apply_highlights [] text highlights ;;
  Ok (map span_of (runs paragraph)).

(** The range of [text] an element stands for. *)
Definition elem_start (e : Element) : Z :=
  match e with
  | RunElement r => run_start r
  | BreakElement position => position
  end.

Definition elem_end (e : Element) : Z :=
  match e with
  | RunElement r => run_end r
  | BreakElement position => position + 1
  end.

(** Position [p] lies in the range of the element. *)
Definition covers (e : Element) (p : Z) : Prop :=
  elem_start e <= p < elem_end e.

(** The elements are laid end to end from [a] to [b]. *)
Inductive chain : Z -> list Element -> Z -> Prop :=
| chain_nil : forall a, chain a [] a
| chain_cons : forall e l b,
    elem_start e <= elem_end e ->
    chain (elem_end e) l b ->
    chain (elem_start e) (e :: l) b.

(** The runs the loop over [filtered_matches] adds from [current_pos] on
    once the first write is done, and the position it ends at. *)
Fixpoint runs_from (text : list ch) (current_pos : Z) (l : list Match)
  : list Run :=
  match l with
  | [] => []
  | m :: l' =>
      (if m_start m >? current_pos
       then [mkRun current_pos (m_start m)
               (slice text current_pos (m_start m)) Plain]
       else [])
      ++ mkRun (m_start m) (m_end m) (m_group m) Highlight
      :: runs_from text (m_end m) l'
  end.

Fixpoint last_pos (current_pos : Z) (l : list Match) : Z :=
  match l with
  | [] => current_pos
  | m :: l' => last_pos (m_end m) l'
  end.

(** The content of the paragraph after the round of the first match kept:
    the first write goes through [paragraph.text] and [paragraph.runs[0]]. *)
Definition first_round (text : list ch) (m : Match) : result (list Element) :=
  if m_start m >? 0
  then paragraph <- format_first_run Plain
                      (set_text 0 (slice text 0 (m_start m))) ;;
       Ok (paragraph ++
           [RunElement (mkRun (m_start m) (m_end m) (m_group m) Highlight)])
  else format_first_run Highlight (set_text (m_start m) (m_group m)).

(** The run of the text after the last match, if any is left. *)
Definition trailing_run (text : list ch) (current_pos : Z) : list Run :=
  if current_pos <? len text
  then [mkRun current_pos (len text) (slice text current_pos (len text)) Plain]
  else [].

(** The matches the overlap filter keeps, given the end of the last one
    kept. *)
Fixpoint accepted_from (last_end : Z) (l : list Match) : list Match :=
  match l with
  | [] => []
  | m :: l' =>
      if m_start m >=? last_end then m :: accepted_from (m_end m) l'
      else accepted_from last_end l'
  end.

(** Matches that follow one another between [lo] and [hi] without
    overlap. *)
Fixpoint separated (lo : Z) (l : list Match) (hi : Z) : Prop :=
  match l with
  | [] => lo <= hi
  | m :: l' =>
      lo <= m_start m /\ m_start m <= m_end m /\ separated (m_end m) l' hi
  end.

(** A match lies inside the text and shows the characters of its range. *)
Definition in_text (text : list ch) (m : Match) : Prop :=
  0 <= m_start m /\ m_start m <= m_end m /\ m_end m <= len text /\
  m_group m = slice text (m_start m) (m_end m).

(** [m] is an occurrence of [pattern] in [text]: a range of [text] as long
    as the pattern whose characters equal those of the pattern up to case. *)
Definition occurrence (pattern text : list ch) (m : Match) : Prop :=
  0 <= m_start m /\
  m_end m = m_start m + len pattern /\
  m_end m <= len text /\
  m_group m = slice text (m_start m) (m_end m) /\
  Forall2 (fun p c => ieq p c = true) pattern (m_group m).

(** The term [h] between [hs1] and [hs2] finds nothing and the output is
    that of the terms without it. *)
Definition term_ignored (paragraph : list Element) (text : list ch)
  (hs1 : list (list ch)) (h : list ch) (hs2 : list (list ch)) : Prop :=
  finditer h text = [] /\
  _apply_highlights paragraph text (hs1 ++ h :: hs2) =
  _apply_highlights paragraph text (hs1 ++ hs2).

(** The sweep over the sorted candidates, as a relation between the end of
    the last accepted interval, the candidates and the accepted ones. *)
Inductive sweep : Z -> list Match -> list Match -> Prop :=
| sweep_done : forall last_end, sweep last_end [] []
| sweep_accept : forall last_end m rest acc,
    m_start m >= last_end ->
    sweep (m_end m) rest acc ->
    sweep last_end (m :: rest) (m :: acc)
| sweep_reject : forall last_end m rest acc,
    m_start m < last_end ->
    sweep last_end rest acc ->
    sweep last_end (m :: rest) acc.

End Highlights.

Arguments Run ch : clear implicits.
Arguments Element ch : clear implicits.
Arguments Match ch : clear implicits.

End Merger.

(** ** Document builder: [create_presentation] *)

Module Builder.
Import PyStr.

(** The input dictionaries, with [None] for a key that is missing. *)
Record Verse : Type := mkVerse {
  verse_reference : option str;
  verse_text : option str;
  verse_highlights : option (list str)
}.

Record SectionData : Type := mkSectionData {
  section_name : option str;
  section_verses : option (list Verse)
}.

Record Data : Type := mkData {
  presentation_title : option str;
  presentation_subtitle : option str;
  sections : option (list SectionData)
}.

(** The slides of the presentation object, in the order they were added. *)
Inductive Slide : Type :=
| TitleSlide (title subtitle : str)
| SectionSlide (name : str)
| VerseSlide (paragraph : list (Merger.Element ascii)) (reference : str)
    (part_num : option Z).

(** The slides of a verse. *)
Definition is_verse_slide (s : Slide) : Prop :=
  match s with
  | VerseSlide _ _ _ => True
  | _ => False
  end.

(** [d[key]]: a [KeyError] on a missing key. *)
Definition item {A : Type} (key : string) (v : option A) : result A :=
  match v with
  | Some a => Ok a
  | None => Raise (KeyError (py key))
  end.

(** [d.get(key, default)] *)
Definition get {A : Type} (v : option A) (default : A) : A :=
  match v with
  | Some a => a
  | None => default
  end.

(** Truth value of an optional string or list: [None] and the empty one are
    false. *)
Definition opt_truthy {A : Type} (v : option (list A)) : bool :=
  match v with
  | Some l => truthy l
  | None => false
  end.

(** Truth value of the [data] argument: [None] and the empty dictionary are
    false. *)
Definition data_truthy (data : option Data) : bool :=
  match data with
  | None => false
  | Some d =>
      match presentation_title d, presentation_subtitle d, sections d with
      | None, None, None => false
      | _, _, _ => true
      end
  end.

(** [enumerate(l)] *)
Definition enumerate {A : Type} (l : list A) : list (nat * A) :=
  combine (seq 0 (length l)) l.

Definition add_title_slide (prs : list Slide) (title subtitle : str)
  : list Slide :=
  prs ++ [TitleSlide title subtitle].

Definition add_section_slide (prs : list Slide) (name : str) : list Slide :=
  prs ++ [SectionSlide name].

(** [add_verse_slide]: the paragraph of the new slide is filled by
    [_apply_highlights] when [highlights] is neither [None] nor empty, by
    [p.text = verse_text] otherwise. *)
Definition add_verse_slide (prs : list Slide) (verse_text reference : str)
  (part_num : option Z) (highlights : option (list str))
  : result (list Slide) :=
  p <- match highlights with
       | Some (h :: hs) =>
           Merger._apply_highlights Merger.ascii_ieq Merger.ascii_line_break
             [] verse_text (h :: hs)
       | _ => Ok (Merger.set_text Merger.ascii_line_break 0 verse_text)
       end ;;
  Ok (prs ++ [VerseSlide p reference part_num]).

(** What a call prints. *)
Inductive Message : Type :=
| NoDataProvided
| CreatedSuccessfully (output_file : str)
| ErrorSaving.

Section Create.

(** [split_long_text] and [sanitize_filename] of the [utils] module, and the
    file system with [prs.save], which reports whether it succeeded. *)
Variable split_long_text : str -> list str.
Variable sanitize_filename : str -> str.
Variable FS : Type.
Variable save : list Slide -> str -> FS -> FS * bool.

(** The body of [for verse in section_data["verses"]:]. *)
Definition verse_step (prs : list Slide) (verse : Verse)
  : result (list Slide) :=
  text <- item "text" (verse_text verse) ;;
  let verse_parts := split_long_text text in
  let highlights := verse_highlights verse in
  for_each
    (fun prs (ip : nat * str) =>
       let '(i, part) := ip in
       let part_num :=
         if len verse_parts >? 1 then Some (Z.of_nat i + 1) else None in
       reference <- item "reference" (verse_reference verse) ;;
       add_verse_slide prs part reference part_num highlights)
    (enumerate verse_parts) prs.

(** The body of [for section_data in verses_data:]. *)
Definition section_step (custom_title : option str) (prs : list Slide)
  (section_data : SectionData) : result (list Slide) :=
  if opt_truthy (section_verses section_data) then
    prs <- (if negb (opt_truthy custom_title)
            then name <- item "section" (section_name section_data) ;;
                 Ok (add_section_slide prs name)
            else Ok prs) ;;
    verses <- item "verses" (section_verses section_data) ;;
    for_each verse_step verses prs
  else Ok prs.

(** The slides built before the file is saved. *)
Definition build_slides (d : Data) (custom_title : option str)
  : result (list Slide) :=
  let verses_data := get (sections d) [] in
  let '(title, subtitle) :=
    if opt_truthy custom_title
    then (get custom_title [], [])
    else (get (presentation_title d) (py "Bible Verses Collection"),
          get (presentation_subtitle d) (py "Selected Scriptures")) in
  let prs := add_title_slide [] title subtitle in
  for_each (section_step custom_title) verses_data prs.

(** The name of the file to write. *)
Definition output_name (d : Data) (output_file custom_title : option str)
  : str :=
  let output_file :=
    if negb (opt_truthy output_file)
    then
      let base_name :=
        if opt_truthy custom_title
        then sanitize_filename (get custom_title [])
        else sanitize_filename (get (presentation_title d) (py "presentation")) in
      base_name ++ py ".pptx"
    else get output_file [] in
  if negb (ends_with (py ".pptx") output_file)
  then output_file ++ py ".pptx"
  else output_file.

(** [create_presentation(data, output_file, custom_title)] run on the file
    system [fs]: what it returns or raises, the file system afterwards and
    what it printed. *)
Definition create_presentation (data : option Data)
  (output_file custom_title : option str) (fs : FS)
  : result (option str) * FS * list Message :=
  if negb (data_truthy data) then (Ok None, fs, [NoDataProvided])
  else
    match data with
    | None => (Ok None, fs, [NoDataProvided])
    | Some d =>
        match build_slides d custom_title with
        | Raise e => (Raise e, fs, [])
        | Ok prs =>
            let output_file := output_name d output_file custom_title in
            let '(fs', saved) := save prs output_file fs in
            if saved
            then (Ok (Some output_file), fs', [CreatedSuccessfully output_file])
            else (Ok None, fs', [ErrorSaving])
        end
    end.

End Create.

(** The segmenter with its default bound, and a file system as the list of
    the files written, to run the builder. *)
Definition split_default (text : str) : list str :=
  Segmenter.split_long_text text Segmenter.default_max_length.

Definition save_always (prs : list Slide) (name : str)
  (fs : list (str * list Slide)) : list (str * list Slide) * bool :=
  ((name, prs) :: fs, true).

End Builder.

(** ** Notions used to state further properties of the segmenter, the
    merger and the builder *)

Module Observations.
Import PyStr Builder.

(** [s] holds the character [a] directly followed by [b]. *)
Fixpoint has_pair (a b : ascii) (s : str) : bool :=
  match s with
  | [] => false
  | x :: rest =>
      match rest with
      | [] => false
      | y :: _ => (Ascii.eqb x a && Ascii.eqb y b) || has_pair a b rest
      end
  end.

(** The chunks made from groups of consecutive units: each group that is
    not empty text, joined and trimmed. *)
Definition chunks_of_groups (groups : list (list str)) : list str :=
  map (fun g => strip (concat g)) (filter (fun g => truthy (concat g)) groups).

(** A group of two or more units fits the bound. *)
Definition group_bounded (max_length : Z) (g : list str) : Prop :=
  (2 <= length g)%nat -> len (concat g) <= max_length.

(** A group ends only where the unit that follows does not fit. *)
Fixpoint greedy (max_length : Z) (groups : list (list str)) : Prop :=
  match groups with
  | [] => True
  | g :: rest =>
      match rest with
      | (u :: _) :: _ => len (concat g ++ u) > max_length
      | _ => True
      end /\ greedy max_length rest
  end.

(** The names on the section slides, and the references and part numbers of
    the verse slides, in slide order. *)
Definition section_names (prs : list Slide) : list str :=
  flat_map (fun s => match s with SectionSlide name => [name] | _ => [] end)
    prs.

Definition verse_labels (prs : list Slide) : list (str * option Z) :=
  flat_map
    (fun s => match s with
              | VerseSlide _ reference part_num => [(reference, part_num)]
              | _ => []
              end) prs.

(** The part numbers of a verse split into [n] parts: 1 to [n], or none when
    there is one part. *)
Definition part_numbers (n : nat) : list (option Z) :=
  map (fun i => if Z.of_nat n >? 1 then Some (Z.of_nat i + 1) else None)
    (seq 0 n).

(** The references and part numbers of the slides of one verse: a slide for
    each part of its text, numbered as [part_numbers] says, each under the
    reference of the verse. *)
Definition labels_of_verse (split_long_text : str -> list str)
  (verse : Verse) : list (str * option Z) :=
  map (fun part_num => (get (verse_reference verse) [], part_num))
    (part_numbers (length (split_long_text (get (verse_text verse) [])))).

(** What the slides added for one verse are: verse slides, one for each part
    of its text and in order, numbered as [part_numbers] says, each under
    the reference the verse has. *)
Definition verse_outcome (split_long_text : str -> list str) (verse : Verse)
  (new : list Slide) : Prop :=
  Forall is_verse_slide new /\
  verse_labels new = labels_of_verse split_long_text verse /\
  Forall (fun label => verse_reference verse = Some (fst label))
    (verse_labels new).

(** The section has a non-empty list of verses. *)
Definition has_verses (section_data : SectionData) : bool :=
  opt_truthy (section_verses section_data).

(** Not a title slide. *)
Definition not_title (s : Slide) : Prop :=
  match s with
  | TitleSlide _ _ => False
  | _ => True
  end.

(** The parts of the verses of one section. *)
Definition section_parts (split_long_text : str -> list str)
  (section_data : SectionData) : list str :=
  flat_map (fun verse => split_long_text (get (verse_text verse) []))
    (get (section_verses section_data) []).

(** The references and part numbers of the verse slides of one section and
    of a list of sections. *)
Definition labels_of_section (split_long_text : str -> list str)
  (section_data : SectionData) : list (str * option Z) :=
  flat_map (labels_of_verse split_long_text)
    (get (section_verses section_data) []).

Definition all_labels (split_long_text : str -> list str)
  (l : list SectionData) : list (str * option Z) :=
  flat_map (labels_of_section split_long_text) l.

(** What the slides added for one section are: a slide with its name when it
    has verses and no custom title is given, then the slides of its verses. *)
Definition section_outcome (split_long_text : str -> list str)
  (custom_title : option str) (section_data : SectionData)
  (new : list Slide) : Prop :=
  map Some (section_names new) =
    (if has_verses section_data && negb (opt_truthy custom_title)
     then [section_name section_data] else []) /\
  verse_labels new = labels_of_section split_long_text section_data /\
  Forall not_title new.

(** No highlight terms are given for the verse: [highlights] is missing or
    empty. *)
Definition no_highlights (verse : Verse) : Prop :=
  verse_highlights verse = None \/ verse_highlights verse = Some [].

(** A section the builder can read: when it has verses, it has a name unless
    a custom title is given, and each verse has a text and a reference. *)
Definition readable (custom_title : option str)
  (section_data : SectionData) : Prop :=
  has_verses section_data = true ->
  (opt_truthy custom_title = true \/ section_name section_data <> None) /\
  Forall (fun verse => verse_text verse <> None /\
                       verse_reference verse <> None)
    (get (section_verses section_data) []).

(** The texts of all verses of the sections, each split into its parts. *)
Definition all_parts (split_long_text : str -> list str)
  (l : list SectionData) : list str :=
  flat_map (section_parts split_long_text) l.

(** A verse of 203 characters and its two parts, and data of two sections
    holding it and a short verse, to run the builder. *)
Definition long_verse_part1 : str :=
  py "The Lord will send you back in ships to Egypt on a journey I said you should never make again.".

Definition long_verse_part2 : str :=
  py "There you will offer yourselves for sale to your enemies as male and female slaves, but no one will buy you.".

Definition long_verse_text : str :=
  long_verse_part1 ++ py " " ++ long_verse_part2.

Definition long_verse : Verse :=
  mkVerse (Some (py "Deut 28:68")) (Some long_verse_text) None.

Definition two_sections_data : Data :=
  mkData (Some (py "Hope")) None
    (Some [mkSectionData (Some (py "Law")) (Some [long_verse]);
           mkSectionData (Some (py "Empty")) (Some []);
           mkSectionData (Some (py "Gospel"))
             (Some [mkVerse (Some (py "John 11:35"))
                      (Some (py "Jesus wept.")) (Some [py "wept"])])]).

End Observations.

(** ** The command-line generator of [app.py] *)

Module App.
Import PyStr Builder.

(** [c.isalnum()] for a code point below 256. *)
Definition isalnum (c : ascii) : bool :=
  let n := N_of_ascii c in
  (((48 <=? n) && (n <=? 57)) || ((65 <=? n) && (n <=? 90)) ||
   ((97 <=? n) && (n <=? 122)) || (n =? 170) ||
   ((178 <=? n) && (n <=? 179)) || (n =? 181) ||
   ((185 <=? n) && (n <=? 186)) || ((188 <=? n) && (n <=? 190)) ||
   ((192 <=? n) && (n <=? 214)) || ((216 <=? n) && (n <=? 246)) ||
   (248 <=? n))%N.

(** [c.isalnum() or c in (' ', '-', '_')] *)
Definition title_char (c : ascii) : bool :=
  isalnum c || Ascii.eqb c " " || Ascii.eqb c "-" || Ascii.eqb c "_".

(** The file name made from a custom title:
    ["".join(c for c in custom_title if ...).rstrip()] and then
    [safe_title.replace(' ', '_')]. *)
Definition safe_title (custom_title : str) : str :=
  replace (py " ") (py "_") (rstrip (filter title_char custom_title)).

(** [str(n)] for a natural number. *)
Definition str_of_nat (n : nat) : str :=
  py (NilZero.string_of_uint (Nat.to_uint n)).

(** The double quote character. *)
Definition dquote : ascii := ascii_of_nat 34.

(** A part between double quotes, as the text box shows it. *)
Definition quoted (part : str) : str := dquote :: part ++ [dquote].

(** The slides of this generator: a verse slide holds the text of its title
    box and of its text box. *)
Inductive AppSlide : Type :=
| AppTitle (title subtitle : str)
| AppSection (name : str)
| AppVerse (title text : str).


(** What [json.load] on the opened file gives. *)
Inductive read_outcome : Type :=
| FileNotFoundError
| JSONDecodeError
| Parsed (data : option Data).


Section Generator.

(** [split_long_text] with its default bound, the file read by
    [load_verses_data], [os.path.splitext(os.path.basename(f))[0]], and
    [prs.save], which raises when it fails. *)
Variable split_long_text : str -> list str.
Variable read_json : str -> read_outcome.
Variable base_name : str -> str.
Variable FS : Type.
Variable save : list AppSlide -> str -> FS -> FS * bool.


(** The body of [for verse in section_data["verses"]:]. *)
Definition verse_step (prs : list AppSlide) (verse : Verse)
  : result (list AppSlide) :=
  text <- item "text" (verse_text verse) ;;
  let verse_parts := split_long_text text in
  for_each
    (fun prs (ip : nat * str) =>
       let '(i, part) := ip in
       title <-
         (if len verse_parts >? 1
          then reference <- item "reference" (verse_reference verse) ;;
               Ok (reference ++ py " (Part " ++ str_of_nat (i + 1) ++
                   py "/" ++ str_of_nat (length verse_parts) ++ py ")")
          else item "reference" (verse_reference verse)) ;;
       Ok (prs ++ [AppVerse title (dquote :: part ++ [dquote])]))
    (enumerate verse_parts) prs.

(** The body of [for section_data in verses_data:]. *)
Definition section_step (custom_title : option str) (prs : list AppSlide)
  (section_data : SectionData) : result (list AppSlide) :=
  prs <- (if negb (opt_truthy custom_title)
          then name <- item "section" (section_name section_data) ;;
               Ok (prs ++ [AppSection name])
          else Ok prs) ;;
  verses <- item "verses" (section_verses section_data) ;;
  for_each verse_step verses prs.

(** The slides built before the file is saved. *)
Definition build_slides (d : Data) (custom_title : option str)
  : result (list AppSlide) :=
  let verses_data := get (sections d) [] in
  let '(title, subtitle) :=
    if opt_truthy custom_title
    then (get custom_title [], [])
    else (get (presentation_title d) (py "Bible Verses Collection"),
          get (presentation_subtitle d) (py "Selected Scriptures")) in
  for_each (section_step custom_title) verses_data [AppTitle title subtitle].

(** The name of the file to write: [output_file] unless it is [None]. *)
Definition output_name (verses_file : str)
  (output_file custom_title : option str) : str :=
  match output_file with
  | Some f => f
  | None =>
      if opt_truthy custom_title
      then safe_title (get custom_title []) ++ py ".pptx"
      else base_name verses_file ++ py "_presentation.pptx"
  end.


End Generator.

(** The names on the section slides and the texts in the text boxes of the
    verse slides, in slide order. *)
Definition section_names (prs : list AppSlide) : list str :=
  flat_map (fun s => match s with AppSection name => [name] | _ => [] end) prs.

Definition verse_bodies (prs : list AppSlide) : list str :=
  flat_map (fun s => match s with AppVerse _ text => [text] | _ => [] end) prs.

End App.

(** ** Loading the data: [loader.py] *)

Module Loader.
Import PyStr Builder.

(** A Python object: a dictionary of the shape the builder reads, or
    anything else. *)
Inductive pyobject : Type :=
| PyDict (d : Data)
| NotADict.

(** [data["sections"] = []] when the key is missing. *)
Definition with_sections (d : Data) : Data :=
  match sections d with
  | Some _ => d
  | None => mkData (presentation_title d) (presentation_subtitle d) (Some [])
  end.

(** [load_verses_from_dict(data)]: the dictionary, or [ValueError]. *)
Inductive dict_outcome : Type :=
| Validated (d : Data)
| ValueError.

Definition load_verses_from_dict (data : pyobject) : dict_outcome :=
  match data with
  | NotADict => ValueError
  | PyDict d => Validated (with_sections d)
  end.

(** What opening and parsing the file gives, and what the loader prints. *)
Inductive file_outcome : Type :=
| FileNotFound
| InvalidJSON
| OtherException
| Loaded (data : pyobject).

Inductive LoaderMessage : Type :=
| MustBeObject
| NoSectionsKey
| NotFoundMessage (filepath : str)
| InvalidFormat (filepath : str)
| ErrorLoading (filepath : str).

Section File.

Variable read_json : str -> file_outcome.

(** [load_verses_from_file(filepath)] *)
Definition load_verses_from_file (filepath : str)
  : option Data * list LoaderMessage :=
  match read_json filepath with
  | Loaded NotADict => (None, [MustBeObject])
  | Loaded (PyDict d) =>
      match sections d with
      | None => (Some (with_sections d), [NoSectionsKey])
      | Some _ => (Some d, [])
      end
  | FileNotFound => (None, [NotFoundMessage filepath])
  | InvalidJSON => (None, [InvalidFormat filepath])
  | OtherException => (None, [ErrorLoading filepath])
  end.

End File.

End Loader.

(** ** The MIME type of an uploaded file: [gdrive_uploader.py] *)

Module GDrive.
Import PyStr.

(** [s == t] on strings. *)
Fixpoint str_eqb (s t : str) : bool :=
  match s, t with
  | [], [] => true
  | a :: s', b :: t' => Ascii.eqb a b && str_eqb s' t'
  | _, _ => false
  end.

(** [s.rfind(c)]: the last position of [c] in [s], or -1.  [pos] is the
    position of the head of [s] and [found] the last position seen. *)
Fixpoint rfind_from (c : ascii) (s : str) (pos found : Z) : Z :=
  match s with
  | [] => found
  | x :: rest => rfind_from c rest (pos + 1) (if Ascii.eqb x c then pos else found)
  end.

Definition rfind (c : ascii) (s : str) : Z := rfind_from c s 0 (-1).

(** [Path(p).name] of a POSIX path: the last component that is neither
    empty nor ["."]. *)
Definition path_name (p : str) : str :=
  last (filter (fun c => negb (str_eqb c []) && negb (str_eqb c (py ".")))
          (split "/"%char p)) [].

(** [Path(p).suffix] *)
Definition path_suffix (p : str) : str :=
  let name := path_name p in
  let i := rfind "."%char name in
  if (0 <? i) && (i <? len name - 1) then slice name i (len name) else [].

(** [s.lower()] on code points below 256. *)
Definition str_lower (s : str) : str := map Merger.lower s.

(** The [mime_types] table and [mime_types.get(extension, default)]. *)
Definition mime_types : list (str * str) :=
  [(py ".pptx",
    py "application/vnd.openxmlformats-officedocument.presentationml.presentation");
   (py ".ppt", py "application/vnd.ms-powerpoint");
   (py ".pdf", py "application/pdf");
   (py ".json", py "application/json");
   (py ".txt", py "text/plain")].

Fixpoint dict_get (d : list (str * str)) (key default : str) : str :=
  match d with
  | [] => default
  | (k, v) :: d' => if str_eqb k key then v else dict_get d' key default
  end.

(** [_get_mime_type(file_path)] *)
Definition _get_mime_type (file_path : str) : str :=
  let extension := str_lower (path_suffix file_path) in
  dict_get mime_types extension (py "application/octet-stream").

End GDrive.

(** * Theorems *)

(** ** String primitives *)

Module PyStrFacts.
Import PyStr.

Lemma len_app {A : Type} (a b : list A) : len (a ++ b) = len a + len b.
Proof. unfold len. rewrite length_app. lia. Qed.

Lemma len_nonneg {A : Type} (a : list A) : 0 <= len a.
Proof. unfold len. lia. Qed.

Lemma lstrip_length (s : str) : (length (lstrip s) <= length s)%nat.
Proof.
  induction s as [|c s IH]; simpl; [lia|].
  destruct (isspace c); simpl; lia.
Qed.

Lemma strip_len (s : str) : len (strip s) <= len s.
Proof.
  unfold len, strip, rstrip. rewrite length_rev.
  pose proof (lstrip_length (rev (lstrip s))) as H1.
  rewrite length_rev in H1.
  pose proof (lstrip_length s). lia.
Qed.

Lemma nonspace_lstrip (s : str) :
  filter (fun c => negb (isspace c)) (lstrip s) =
  filter (fun c => negb (isspace c)) s.
Proof.
  induction s as [|c s IH]; simpl; [reflexivity|].
  destruct (isspace c) eqn:E; simpl; [exact IH|].
  rewrite E. reflexivity.
Qed.

Lemma filter_rev_comm {A : Type} (f : A -> bool) (l : list A) :
  filter f (rev l) = rev (filter f l).
Proof.
  induction l as [|a l IH]; simpl; [reflexivity|].
  rewrite filter_app, IH. simpl.
  destruct (f a); simpl; [reflexivity | now rewrite app_nil_r].
Qed.

Lemma nonspace_strip (s : str) :
  filter (fun c => negb (isspace c)) (strip s) =
  filter (fun c => negb (isspace c)) s.
Proof.
  unfold strip, rstrip.
  rewrite filter_rev_comm, nonspace_lstrip, filter_rev_comm, rev_involutive.
  apply nonspace_lstrip.
Qed.

End PyStrFacts.

(** ** Text segmenter *)

Module SegmenterTheorems.
Import PyStr Segmenter PyStrFacts.

Lemma emit_current_ok (units : list str) (max_length : Z) (parts : list str)
  (current_part : str) :
  loop_inv units max_length (parts, current_part) ->
  Forall (fun chunk =>
            len chunk <= max_length \/
            exists unit, In unit units /\ len unit > max_length /\
                         chunk = strip unit)
    (if truthy current_part then parts ++ [strip current_part] else parts).
Proof.
  intros [Hparts Hcur]. simpl in Hparts, Hcur.
  destruct current_part as [|c cur]; simpl truthy; [exact Hparts|].
  apply Forall_app. split; [exact Hparts|].
  constructor; [|constructor].
  destruct Hcur as [Hnil | [Hle | [Hin Hgt]]].
  - discriminate.
  - left. pose proof (strip_len (c :: cur)). lia.
  - right. exists (c :: cur). auto.
Qed.

Lemma loop_step_inv (units : list str) (max_length : Z)
  (st : list str * str) (sentence : str) :
  In sentence units ->
  loop_inv units max_length st ->
  loop_inv units max_length (loop_step max_length st sentence).
Proof.
  intros Hin Hinv. destruct st as [parts current_part].
  unfold loop_step.
  destruct (len (current_part ++ sentence) <=? max_length) eqn:E.
  - apply Z.leb_le in E. destruct Hinv as [Hparts _].
    split; simpl; [exact Hparts | right; left; exact E].
  - split; simpl.
    + apply emit_current_ok. exact Hinv.
    + destruct (Z_le_gt_dec (len sentence) max_length) as [Hle | Hgt].
      * right. left. exact Hle.
      * right. right. split; assumption.
Qed.

Lemma loop_inv_fold (units : list str) (max_length : Z) (l : list str) :
  forall st,
    incl l units ->
    loop_inv units max_length st ->
    loop_inv units max_length (fold_left (loop_step max_length) l st).
Proof.
  induction l as [|sentence l IH]; intros st Hincl Hinv; simpl.
  - exact Hinv.
  - apply IH.
    + intros x Hx. apply Hincl. now right.
    + apply loop_step_inv; [apply Hincl; now left | exact Hinv].
Qed.

Lemma split_parts_bounded (text : str) (max_length : Z) :
  Forall (fun chunk =>
            len chunk <= max_length \/
            exists unit, In unit (sentences_of text) /\
                         len unit > max_length /\ chunk = strip unit)
    (split_parts text max_length).
Proof.
  unfold split_parts.
  pose proof (loop_inv_fold (sentences_of text) max_length (sentences_of text)
                (@nil str, @nil ascii : str) (incl_refl _)) as H.
  destruct (fold_left (loop_step max_length) (sentences_of text) _)
    as [parts current_part].
  apply emit_current_ok. apply H.
  split; simpl; [constructor | left; reflexivity].
Qed.

(** C7. A text no longer than [max_length] is returned as the only chunk,
    unchanged. *)
Theorem short_text_single_chunk (text : str) (max_length : Z) :
  0 < max_length ->
  len text <= max_length ->
  split_long_text text max_length = [text].
Proof.
  intros _ Hle. unfold split_long_text.
  apply Z.leb_le in Hle. now rewrite Hle.
Qed.

Lemma short_text_single_chunk_witness :
  split_long_text (py "Jesus wept.") 200 = [py "Jesus wept."].
Proof.
  apply (short_text_single_chunk (py "Jesus wept.") 200).
  - lia.
  - vm_compute. discriminate.
Defined.

(** C8. The segmenter returns a result on every text and every positive
    [max_length], the result has at least one chunk, and when the loop over
    the units leaves no part the full text is returned as the only chunk. *)
Theorem segmenter_total_with_fallback (text : str) (max_length : Z) :
  0 < max_length ->
  (exists chunks, split_long_text text max_length = chunks /\ chunks <> []) /\
  (len text > max_length ->
   split_parts text max_length = [] ->
   split_long_text text max_length = [text]).
Proof.
  intros _. split.
  - eexists. split; [reflexivity|].
    unfold split_long_text.
    destruct (len text <=? max_length); [discriminate|].
    destruct (split_parts text max_length); discriminate.
  - intros Hgt Hparts. unfold split_long_text.
    destruct (len text <=? max_length) eqn:E.
    + apply Z.leb_le in E. lia.
    + now rewrite Hparts.
Qed.

Lemma segmenter_total_with_fallback_witness :
  split_long_text (py "||") 1 = [py "||"].
Proof.
  apply (proj2 (segmenter_total_with_fallback (py "||") 1 ltac:(lia))).
  - vm_compute. reflexivity.
  - vm_compute. reflexivity.
Defined.

(** Every chunk has length at most [max_length], or is the trimmed form of
    a single unit longer than [max_length], or is the full text returned by
    the fallback when the loop left no part. *)
Lemma chunk_length_bound (text : str) (max_length : Z) (chunk : str) :
  In chunk (split_long_text text max_length) ->
  len chunk <= max_length \/
  (exists unit, In unit (sentences_of text) /\ len unit > max_length /\
                chunk = strip unit) \/
  (split_parts text max_length = [] /\ len text > max_length /\ chunk = text).
Proof.
  unfold split_long_text.
  destruct (len text <=? max_length) eqn:E.
  - apply Z.leb_le in E. intros [<- | []]. left. exact E.
  - apply Z.leb_gt in E.
    pose proof (split_parts_bounded text max_length) as Hall.
    destruct (split_parts text max_length) as [|p parts] eqn:Eparts.
    + intros [<- | []]. right. right. repeat split; [lia].
    + intros Hin. rewrite Forall_forall in Hall.
      destruct (Hall chunk Hin) as [Hle | Hunit]; [left | right; left]; assumption.
Qed.

(** *** The units of a text without ['|'] *)

Lemma starts_with_pair (a b : ascii) (s : str) :
  starts_with [a; b] s = true -> exists rest, s = a :: b :: rest.
Proof.
  destruct s as [|c [|d rest]]; simpl; try discriminate.
  - rewrite andb_false_r. discriminate.
  - intros H. apply andb_prop in H as [Ha H].
    apply andb_prop in H as [Hb _].
    apply Ascii.eqb_eq in Ha, Hb. subst. now exists rest.
Qed.

(** Whether the character before a character that is no space satisfies
    [p] makes no difference. *)
Lemma mark_after_no_space (p : ascii -> bool) (prev : bool) (s : str) :
  starts_with [" "%char] s = false ->
  mark_after p prev s = mark_after p false s.
Proof.
  destruct s as [|c rest]; [reflexivity|]. cbn [starts_with mark_after].
  rewrite andb_true_r, Ascii.eqb_sym. intros ->.
  now rewrite andb_false_r.
Qed.

(** [s.replace(a + ' ', a + '|')] turns into ['|'] every space that follows
    the character [a]. *)
Lemma replace_as_mark (a : ascii) (s : str) :
  a <> " "%char ->
  replace_from [a; " "%char] [a; "|"%char] 0 s =
    mark_after (Ascii.eqb a) false s /\
  replace_from [a; " "%char] [a; "|"%char] 1 s =
    mark_after (Ascii.eqb a) false (tl s).
Proof.
  intros Ha. induction s as [|c rest [IH0 IH1]]; [split; reflexivity|].
  split; [|exact IH0].
  cbn [replace_from].
  destruct (starts_with [a; " "%char] (c :: rest)) eqn:E.
  - apply starts_with_pair in E as [rest' E]. injection E as -> ->.
    cbn [length Nat.sub app]. rewrite IH1. cbn [tl mark_after].
    rewrite Ascii.eqb_refl. cbn [andb].
    assert (Ascii.eqb a " "%char = false) as -> by now apply Ascii.eqb_neq.
    reflexivity.
  - cbn [mark_after andb]. rewrite IH0. f_equal.
    destruct (Ascii.eqb a c) eqn:Eac; [|reflexivity].
    apply Ascii.eqb_eq in Eac. subst c. symmetry.
    apply mark_after_no_space.
    cbn [starts_with] in E. rewrite Ascii.eqb_refl in E. cbn [andb] in E.
    destruct rest as [|d rest']; [reflexivity|].
    cbn [starts_with] in *. now rewrite andb_true_r in *.
Qed.

(** Two rounds of marking are one round for either character. *)
Lemma mark_after_twice (p1 p2 : ascii -> bool) (s : str) :
  p2 " "%char = false -> p2 "|"%char = false ->
  forall b1 b2,
    mark_after p2 b2 (mark_after p1 b1 s) =
    mark_after (fun c => p1 c || p2 c) (b1 || b2) s.
Proof.
  intros Hsp Hpipe. induction s as [|c rest IH]; intros b1 b2; [reflexivity|].
  cbn [mark_after].
  destruct (Ascii.eqb c " "%char) eqn:Ec.
  - apply Ascii.eqb_eq in Ec. subst c.
    destruct b1; cbn [andb orb].
    + rewrite andb_false_r, IH, Hpipe, Hsp. reflexivity.
    + rewrite andb_true_r, IH.
      destruct b2; cbn [orb]; now rewrite ?Hpipe, ?Hsp.
  - rewrite !andb_false_r, Ec, andb_false_r, IH. reflexivity.
Qed.

Lemma mark_after_ext (p q : ascii -> bool) (s : str) :
  (forall c, p c = q c) ->
  forall prev, mark_after p prev s = mark_after q prev s.
Proof.
  intros Hpq. induction s as [|c rest IH]; intros prev; [reflexivity|].
  cbn [mark_after]. now rewrite IH, Hpq.
Qed.

Lemma mark_sentences_as_mark (text : str) :
  mark_sentences text = mark_after is_end_mark false text.
Proof.
  unfold mark_sentences, replace, py. cbn [list_ascii_of_string].
  rewrite (proj1 (replace_as_mark "?"%char _ ltac:(discriminate))).
  rewrite (proj1 (replace_as_mark "!"%char _ ltac:(discriminate))).
  rewrite (proj1 (replace_as_mark "."%char _ ltac:(discriminate))).
  rewrite !mark_after_twice by reflexivity.
  cbn [orb]. apply mark_after_ext. intros c. unfold is_end_mark.
  now rewrite orb_assoc.
Qed.

(** On a text that holds no ['|'] the units the code works on are those of
    the specification. *)
Lemma units_without_pipe (text : str) :
  ~ In "|"%char text -> sentences_of text = spec_units text.
Proof.
  unfold sentences_of. rewrite mark_sentences_as_mark.
  assert (Hsplit : forall c s, c <> "|"%char ->
            split "|"%char (c :: s) = add_to_first c (split "|"%char s)).
  { intros c s Hc. cbn [split].
    assert (Ascii.eqb c "|"%char = false) as -> by now apply Ascii.eqb_neq.
    reflexivity. }
  assert (H : forall s,
            ~ In "|"%char s ->
            split "|"%char (mark_after is_end_mark false s) = spec_units s /\
            forall c, c <> "|"%char ->
                      split "|"%char (mark_after is_end_mark false (c :: s)) =
                      spec_units (c :: s)).
  { induction s as [|a s IH]; intros Hno.
    - split; [reflexivity|]. intros c Hc. cbn [mark_after andb].
      now rewrite Hsplit.
    - assert (Ha : a <> "|"%char) by (intros ->; apply Hno; now left).
      assert (Hs : ~ In "|"%char s) by (intros H; apply Hno; now right).
      destruct (IH Hs) as [IH0 IH1].
      split; [now apply IH1|].
      intros c Hc.
      assert (Hspec : spec_units (c :: a :: s) =
                      if is_end_mark c && Ascii.eqb a " "%char
                      then [c] :: spec_units s
                      else add_to_first c (spec_units (a :: s)))
        by reflexivity.
      rewrite Hspec. clear Hspec.
      cbn [mark_after andb]. rewrite Hsplit by exact Hc.
      destruct (is_end_mark c) eqn:Ec;
        destruct (Ascii.eqb a " "%char) eqn:Ea; cbn [andb];
        try (rewrite <- (IH1 a Ha); reflexivity).
      apply Ascii.eqb_eq in Ea. subst a.
      change (is_end_mark " "%char) with false.
      rewrite <- IH0. reflexivity. }
  intros Hno. now apply H.
Qed.

(** When the loop leaves no part, every unit is empty. *)
Lemma no_part_no_text (max_length : Z) (l : list str) :
  forall st,
    emitted (fold_left (loop_step max_length) l st) = [] ->
    fst st = [] /\ snd st = [] /\ Forall (fun unit => unit = []) l.
Proof.
  assert (Hnil : forall st : list str * str,
            emitted st = [] -> fst st = [] /\ snd st = []).
  { intros [parts cur]. unfold emitted. cbn [fst snd].
    destruct cur as [|c cur]; cbn [truthy]; [now split|].
    intros H. now apply app_eq_nil in H as [_ H]. }
  induction l as [|unit l IH]; intros st H.
  - destruct (Hnil _ H). now repeat split.
  - cbn [fold_left] in H. destruct (IH _ H) as (Hp & Hc & Hall).
    destruct st as [parts cur]. unfold loop_step in Hp, Hc.
    cbn [fst snd].
    destruct (len (cur ++ unit) <=? max_length); cbn [fst snd] in Hp, Hc.
    + apply app_eq_nil in Hc as [-> ->].
      split; [exact Hp | split; [reflexivity | now constructor]].
    + subst unit. destruct cur as [|c cur]; cbn [truthy] in Hp.
      * split; [exact Hp | split; [reflexivity | now constructor]].
      * now apply app_eq_nil in Hp as [_ Hp].
Qed.

Lemma split_parts_emitted (text : str) (max_length : Z) :
  split_parts text max_length =
  emitted (fold_left (loop_step max_length) (sentences_of text)
             (@nil str, @nil ascii : str)).
Proof.
  unfold split_parts, emitted.
  now destruct (fold_left (loop_step max_length) (sentences_of text) _).
Qed.

(** The first unit of a text that is not empty is not empty. *)
Lemma spec_units_head (c : ascii) (rest : str) :
  exists unit units, spec_units (c :: rest) = (c :: unit) :: units.
Proof.
  cbn [spec_units]. destruct rest as [|sp rest']; [now exists [], []|].
  destruct (is_end_mark c && Ascii.eqb sp " "%char).
  - now exists [], (spec_units rest').
  - destruct (spec_units (sp :: rest')) as [|h t]; cbn [add_to_first];
      eauto.
Qed.

(** On a text without ['|'] and for a positive bound, every chunk is within
    the bound or is, trimmed, a single sentence unit of the specification
    that is itself over the bound: the length bound holds there. *)
Lemma length_bound_without_pipe (text : str) (max_length : Z) :
  0 < max_length ->
  ~ In "|"%char text ->
  spec_length_bound text max_length.
Proof.
  intros Hpos Hno chunk Hin.
  destruct (chunk_length_bound text max_length chunk Hin)
    as [Hle | [[unit (Hu & Hlen & ->)] | (Hnone & Hlong & ->)]].
  - now left.
  - right. exists unit. rewrite <- (units_without_pipe text Hno).
    split; [exact Hu | split; [exact Hlen | now right]].
  - exfalso. rewrite split_parts_emitted in Hnone.
    apply no_part_no_text in Hnone as (_ & _ & Hall).
    rewrite (units_without_pipe text Hno) in Hall.
    destruct text as [|c rest]; [change (len (@nil ascii)) with 0 in Hlong; lia|].
    destruct (spec_units_head c rest) as [unit [units E]].
    rewrite E in Hall. inversion Hall as [|? ? Hhd _]. discriminate Hhd.
Qed.

(** C2. The length bound fails where the text holds a ['|']: the code cuts
    the text there as at the end of a sentence.  In ["aa|bbbb. c"] the
    sentence units are ["aa|bbbb."] and ["c"]; with bound 3 the code returns
    the chunks ["aa"], ["bbbb."] and ["c"], and ["bbbb."], of 5 characters,
    is over the bound and is no sentence unit of the text. *)
Theorem length_bound_broken_by_pipe :
  split_long_text (py "aa|bbbb. c") 3 = [py "aa"; py "bbbb."; py "c"] /\
  spec_units (py "aa|bbbb. c") = [py "aa|bbbb."; py "c"] /\
  sentences_of (py "aa|bbbb. c") = [py "aa"; py "bbbb."; py "c"] /\
  len (py "bbbb.") = 5 /\
  ~ spec_length_bound (py "aa|bbbb. c") 3.
Proof.
  repeat split; try (vm_compute; reflexivity).
  intros H.
  destruct (H (py "bbbb.") ltac:(vm_compute; auto))
    as [Hle | [unit [Hin [_ Heq]]]].
  - vm_compute in Hle. apply Hle. reflexivity.
  - vm_compute in Hin.
    destruct Hin as [<- | [<- | []]]; vm_compute in Heq;
      destruct Heq as [Heq | Heq]; discriminate Heq.
Qed.

(** *** Joining the chunks of a text without ['|'] *)

(** Turning the space after a punctuation mark into ['|'] changes no kept
    character. *)
Lemma replace_from_kept (a : ascii) (s : str) :
  filter kept (replace_from [a; " "%char] [a; "|"%char] 0 s) = filter kept s /\
  filter kept (replace_from [a; " "%char] [a; "|"%char] 1 s) =
  filter kept (tl s).
Proof.
  induction s as [|c rest [IH0 IH1]]; [split; reflexivity|].
  split; [|exact IH0].
  cbn [replace_from].
  destruct (starts_with [a; " "%char] (c :: rest)) eqn:E.
  - apply starts_with_pair in E as [rest' E]. injection E as -> ->.
    cbn [length Nat.sub]. rewrite filter_app, IH1. simpl tl.
    cbn [filter app]. change (kept " "%char) with false.
    change (kept "|"%char) with false.
    destruct (kept a); reflexivity.
  - cbn [filter]. rewrite IH0. reflexivity.
Qed.

Lemma mark_sentences_kept (text : str) :
  filter kept (mark_sentences text) = filter kept text.
Proof.
  unfold mark_sentences, replace, py. cbn [list_ascii_of_string].
  rewrite (proj1 (replace_from_kept "?"%char _)).
  rewrite (proj1 (replace_from_kept "!"%char _)).
  apply (proj1 (replace_from_kept "."%char _)).
Qed.

Lemma concat_split (s : str) :
  concat (split "|"%char s) =
  filter (fun c => negb (Ascii.eqb c "|"%char)) s.
Proof.
  induction s as [|c rest IH]; [reflexivity|].
  cbn [split filter].
  destruct (Ascii.eqb c "|"%char); cbn [negb].
  - exact IH.
  - destruct (split "|"%char rest) as [|h t]; simpl in *; now rewrite <- IH.
Qed.

Lemma filter_filter {A : Type} (f g : A -> bool) (l : list A) :
  filter f (filter g l) = filter (fun x => f x && g x) l.
Proof.
  induction l as [|a l IH]; [reflexivity|]. simpl.
  destruct (g a); simpl; rewrite ?andb_true_r, ?andb_false_r.
  - destruct (f a); now rewrite IH.
  - exact IH.
Qed.

Lemma sentences_nonspace (text : str) :
  nonspace_chars (concat (sentences_of text)) = filter kept text.
Proof.
  unfold sentences_of, nonspace_chars.
  rewrite concat_split, filter_filter.
  apply mark_sentences_kept.
Qed.

Lemma kept_without_pipe (text : str) :
  ~ In "|"%char text -> filter kept text = nonspace_chars text.
Proof.
  unfold nonspace_chars.
  induction text as [|c text IH]; intros Hno; [reflexivity|].
  simpl. unfold kept at 1.
  destruct (Ascii.eqb c "|"%char) eqn:E.
  - apply Ascii.eqb_eq in E. subst. exfalso. apply Hno. now left.
  - rewrite andb_true_r, IH; [reflexivity|].
    intros H. apply Hno. now right.
Qed.

Lemma nonspace_app (a b : str) :
  nonspace_chars (a ++ b) = nonspace_chars a ++ nonspace_chars b.
Proof. apply filter_app. Qed.

Lemma nonspace_emit (parts : list str) (current_part : str) :
  nonspace_chars
    (concat (if truthy current_part then parts ++ [strip current_part]
             else parts)) =
  nonspace_chars (concat parts ++ current_part).
Proof.
  destruct current_part as [|c cur]; cbn [truthy].
  - now rewrite app_nil_r.
  - rewrite concat_app. cbn [concat]. rewrite app_nil_r, !nonspace_app.
    f_equal. apply nonspace_strip.
Qed.

(** The loop moves the characters of the units into the parts. *)
Lemma loop_nonspace (max_length : Z) (l : list str) :
  forall parts current_part,
    nonspace_chars
      (concat (fst (fold_left (loop_step max_length) l (parts, current_part)))
       ++ snd (fold_left (loop_step max_length) l (parts, current_part))) =
    nonspace_chars (concat parts ++ current_part) ++
    nonspace_chars (concat l).
Proof.
  induction l as [|sentence l IH]; intros parts current_part.
  - cbn [fold_left fst snd concat]. unfold nonspace_chars at 3.
    cbn [filter]. now rewrite app_nil_r.
  - cbn [fold_left concat]. unfold loop_step at 2 4.
    destruct (len (current_part ++ sentence) <=? max_length).
    + rewrite IH, !nonspace_app, <- !app_assoc. reflexivity.
    + rewrite IH, nonspace_app, nonspace_emit, !nonspace_app, <- !app_assoc.
      reflexivity.
Qed.

Lemma split_parts_nonspace (text : str) (max_length : Z) :
  nonspace_chars (concat (split_parts text max_length)) = filter kept text.
Proof.
  unfold split_parts.
  pose proof (loop_nonspace max_length (sentences_of text) [] []) as H.
  destruct (fold_left (loop_step max_length) (sentences_of text) _)
    as [parts current_part].
  cbn [fst snd] in H.
  rewrite nonspace_emit, H, sentences_nonspace. reflexivity.
Qed.

(** On a text that holds no ['|'], the chunks joined keep every character
    that is not whitespace, in order. *)
Lemma rejoin_without_pipe (text : str) (max_length : Z) :
  ~ In "|"%char text -> rejoin_preserves text max_length.
Proof.
  intros Hno. unfold rejoin_preserves, split_long_text.
  destruct (len text <=? max_length).
  - cbn [concat]. now rewrite app_nil_r.
  - pose proof (split_parts_nonspace text max_length) as H.
    destruct (split_parts text max_length) as [|p parts].
    + cbn [concat]. now rewrite app_nil_r.
    + rewrite H. now apply kept_without_pipe.
Qed.

(** At a sentence mark the punctuation stays with the unit before it and
    the space after it is dropped. *)
Lemma sentence_mark_example :
  sentences_of (py "Ask. Seek! Knock? Enter") =
  [py "Ask."; py "Seek!"; py "Knock?"; py "Enter"].
Proof. reflexivity. Qed.

(** C4. A ['|'] of the text is taken for a sentence mark and lost: the
    chunks of ["a|b"] with bound 2 join to ["ab"]. *)
Theorem pipe_character_lost :
  split_long_text (py "a|b") 2 = [py "ab"] /\
  nonspace_chars (concat (split_long_text (py "a|b") 2)) = py "ab" /\
  nonspace_chars (py "a|b") = py "a|b" /\
  ~ rejoin_preserves (py "a|b") 2.
Proof.
  repeat split; try (vm_compute; reflexivity).
  intros H. vm_compute in H. discriminate.
Qed.

End SegmenterTheorems.

(** ** Highlight span merger *)

Module MergerTheorems.
Import PyStr Merger PyStrFacts.

Section Highlights.

Context {ch : Type}.
Variable ieq : ch -> ch -> bool.
Variable line_break : ch -> bool.

Local Abbreviation Match := (Match ch).
Local Abbreviation Run := (Run ch).
Local Abbreviation Element := (Element ch).

(** *** Literal search *)

Lemma match_here_length (pattern s : list ch) :
  match_here ieq pattern s = true -> (length pattern <= length s)%nat.
Proof.
  revert s. induction pattern as [|p pattern IH]; intros s H; simpl; [lia|].
  destruct s as [|c s]; simpl in H; [discriminate|].
  apply andb_prop in H as [_ H]. apply IH in H. simpl. lia.
Qed.

Lemma match_here_firstn (pattern s : list ch) :
  match_here ieq pattern s = true ->
  Forall2 (fun p c => ieq p c = true) pattern (firstn (length pattern) s).
Proof.
  revert s. induction pattern as [|p pattern IH]; intros s H; simpl.
  - constructor.
  - destruct s as [|c s]; simpl in H; [discriminate|].
    apply andb_prop in H as [Hc H]. constructor; auto.
Qed.

Lemma slice_after_prefix (pre rest : list ch) (n : nat) :
  slice (pre ++ rest) (len pre) (len pre + Z.of_nat n) = firstn n rest.
Proof.
  unfold slice, len.
  replace (Z.of_nat (length pre) + Z.of_nat n - Z.of_nat (length pre))
    with (Z.of_nat n) by lia.
  rewrite !Nat2Z.id, skipn_app, Nat.sub_diag.
  rewrite skipn_all2 by lia. reflexivity.
Qed.

Lemma slice_whole (text : list ch) : slice text 0 (len text) = text.
Proof.
  unfold slice, len. rewrite Z.sub_0_r, Nat2Z.id. simpl.
  apply firstn_all.
Qed.

Lemma len_snoc (pre : list ch) (c : ch) : len (pre ++ [c]) = len pre + 1.
Proof. rewrite len_app. reflexivity. Qed.

(** Every match reported from position [len pre] on is an occurrence of
    the pattern in the whole text, at or after that position. *)
Lemma finditer_from_sound (pattern rest : list ch) :
  forall pre skip,
    Forall (fun m => len pre <= m_start m /\
                     occurrence ieq pattern (pre ++ rest) m)
      (finditer_from ieq pattern skip (len pre) rest).
Proof.
  induction rest as [|c rest IH]; intros pre skip.
  - cbn [finditer_from]. destruct skip; [|constructor].
    destruct pattern; constructor; [|constructor].
    unfold occurrence, m_start, m_end, m_group. cbn [fst snd].
    pose proof (len_nonneg pre). rewrite app_nil_r.
    repeat split; try lia.
    + change (len (@nil ch)) with 0. lia.
    + unfold slice. rewrite Z.sub_diag. reflexivity.
    + constructor.
  - assert (Htail : forall k,
      Forall (fun m => len pre <= m_start m /\
                       occurrence ieq pattern (pre ++ c :: rest) m)
        (finditer_from ieq pattern k (len pre + 1) rest)).
    { intros k. specialize (IH (pre ++ [c]) k).
      rewrite len_snoc, <- app_assoc in IH. cbn [app] in IH.
      eapply Forall_impl; [|exact IH].
      intros m [Hle Hocc]. split; [lia | exact Hocc]. }
    cbn [finditer_from]. destruct skip as [|k]; [|apply Htail].
    destruct (match_here ieq pattern (c :: rest)) eqn:E; [|apply Htail].
    constructor; [|apply Htail].
    unfold occurrence, m_start, m_end, m_group. cbn [fst snd].
    pose proof (len_nonneg pre). pose proof (match_here_length _ _ E) as Hlen.
    repeat split; try lia.
    + rewrite len_app. unfold len. lia.
    + unfold len at 3. now rewrite slice_after_prefix.
    + now apply match_here_firstn.
Qed.

Lemma finditer_sound (pattern text : list ch) :
  Forall (occurrence ieq pattern text) (finditer ieq pattern text).
Proof.
  pose proof (finditer_from_sound pattern text [] 0%nat) as H.
  eapply Forall_impl; [|exact H]. intros m [_ Hocc]. exact Hocc.
Qed.

Lemma find_matches_sound (text : list ch) (highlights : list (list ch)) :
  Forall (fun m => exists h, In h highlights /\ occurrence ieq h text m)
    (find_matches ieq text highlights).
Proof.
  unfold find_matches. rewrite Forall_forall. intros m Hin.
  apply in_flat_map in Hin as [h [Hh Hm]].
  exists h. split; [exact Hh|].
  pose proof (finditer_sound h text) as H. rewrite Forall_forall in H. auto.
Qed.

Lemma occurrence_in_text (pattern text : list ch) (m : Match) :
  occurrence ieq pattern text m -> in_text text m.
Proof.
  intros (H0 & He & Hn & Hg & _). pose proof (len_nonneg pattern).
  unfold in_text. repeat split; try assumption; lia.
Qed.

Lemma find_matches_in_text (text : list ch) (highlights : list (list ch)) :
  Forall (in_text text) (find_matches ieq text highlights).
Proof.
  eapply Forall_impl; [|apply find_matches_sound].
  intros m [h [_ H]]. eapply occurrence_in_text, H.
Qed.

(** A pattern longer than the rest of the text matches nowhere. *)
Lemma finditer_from_long (pattern rest : list ch) :
  forall skip pos,
    (length rest < length pattern)%nat ->
    finditer_from ieq pattern skip pos rest = [].
Proof.
  induction rest as [|c rest IH]; intros skip pos Hlen.
  - cbn [finditer_from]. destruct skip; [|reflexivity].
    destruct pattern; [simpl in Hlen; lia | reflexivity].
  - cbn [finditer_from]. simpl in Hlen.
    destruct skip as [|k]; [|apply IH; lia].
    destruct (match_here ieq pattern (c :: rest)) eqn:E.
    + apply match_here_length in E. simpl in E. lia.
    + apply IH. lia.
Qed.

(** The empty pattern matches at every position, the end included. *)
Lemma finditer_from_empty (rest : list ch) :
  forall pos,
    finditer_from ieq [] 0 pos rest =
    map (fun i => (pos + Z.of_nat i, pos + Z.of_nat i, []))
      (seq 0 (S (length rest))).
Proof.
  induction rest as [|c rest IH]; intros pos.
  - cbn. now rewrite Z.add_0_r.
  - cbn [finditer_from match_here length Nat.sub].
    rewrite IH.
    change (seq 0 (S (S (length rest))))
      with (0%nat :: seq 1 (S (length rest))).
    rewrite <- seq_shift. cbn [map]. rewrite map_map. f_equal.
    + unfold len. simpl. now rewrite !Z.add_0_r.
    + apply map_ext. intros i.
      replace (pos + 1 + Z.of_nat i) with (pos + Z.of_nat (S i)) by lia.
      reflexivity.
Qed.

(** *** Sorting *)

Lemma insert_by_start_perm (m : Match) (l : list Match) :
  Permutation (m :: l) (insert_by_start m l).
Proof.
  induction l as [|h t IH]; simpl; [reflexivity|].
  destruct (m_start m <=? m_start h); [reflexivity|].
  rewrite perm_swap. now apply perm_skip.
Qed.

Lemma sort_by_start_perm (l : list Match) :
  Permutation l (sort_by_start l).
Proof.
  induction l as [|m l IH]; simpl; [reflexivity|].
  rewrite <- insert_by_start_perm. now apply perm_skip.
Qed.

Lemma insert_by_start_sorted (m : Match) (l : list Match) :
  Sorted (fun x y => m_start x <= m_start y) l ->
  Sorted (fun x y => m_start x <= m_start y) (insert_by_start m l).
Proof.
  induction l as [|h t IH]; intros Hs; simpl.
  - repeat constructor.
  - destruct (m_start m <=? m_start h) eqn:E.
    + apply Z.leb_le in E. constructor; [exact Hs | now constructor].
    + apply Z.leb_gt in E. inversion Hs as [|? ? Ht Hhd]; subst.
      constructor; [apply IH, Ht|].
      destruct t as [|h' t']; simpl.
      * constructor. lia.
      * destruct (m_start m <=? m_start h'); constructor.
        -- lia.
        -- inversion Hhd; subst. assumption.
Qed.

Lemma sort_by_start_sorted (l : list Match) :
  StronglySorted (fun x y => m_start x <= m_start y) (sort_by_start l).
Proof.
  apply Sorted_StronglySorted.
  - intros x y z Hxy Hyz. lia.
  - induction l as [|m l IH]; simpl; [constructor|].
    now apply insert_by_start_sorted.
Qed.

(** *** Overlap filter *)

Lemma filter_fold (l : list Match) :
  forall acc last_end,
    fst (fold_left filter_step l (acc, last_end)) =
    acc ++ accepted_from last_end l.
Proof.
  induction l as [|[[start end_] g] l IH]; intros acc last_end.
  - simpl. now rewrite app_nil_r.
  - cbn [fold_left accepted_from filter_step m_start m_end fst snd].
    destruct (start >=? last_end).
    + rewrite IH, <- app_assoc. reflexivity.
    + apply IH.
Qed.

Lemma filter_overlaps_accepted (l : list Match) :
  filter_overlaps l = accepted_from (-1) l.
Proof. unfold filter_overlaps. now rewrite filter_fold. Qed.

Lemma accepted_sweep (l : list Match) :
  forall last_end, sweep last_end l (accepted_from last_end l).
Proof.
  induction l as [|m l IH]; intros last_end; simpl.
  - constructor.
  - destruct (m_start m >=? last_end) eqn:E.
    + apply sweep_accept; [|apply IH].
      apply Z.geb_le in E. lia.
    + apply sweep_reject; [|apply IH].
      rewrite Z.geb_leb in E. apply Z.leb_gt in E. lia.
Qed.

Lemma accepted_separated (text : list ch) (l : list Match) :
  forall last_end,
    Forall (in_text text) l ->
    last_end <= len text ->
    separated (Z.max 0 last_end) (accepted_from last_end l) (len text).
Proof.
  induction l as [|m l IH]; intros last_end Hall Hle; simpl.
  - pose proof (len_nonneg text). lia.
  - inversion Hall as [|? ? Hm Hl]; subst.
    destruct Hm as (H0 & Hse & Hen & _).
    destruct (m_start m >=? last_end) eqn:E.
    + apply Z.geb_le in E. cbn [separated].
      repeat split; try lia.
      specialize (IH (m_end m) Hl Hen).
      replace (Z.max 0 (m_end m)) with (m_end m) in IH by lia. exact IH.
    + apply IH; assumption.
Qed.

Lemma accepted_Forall (P : Match -> Prop) (l : list Match) :
  forall last_end, Forall P l -> Forall P (accepted_from last_end l).
Proof.
  induction l as [|m l IH]; intros last_end Hall; simpl; [constructor|].
  inversion Hall; subst.
  destruct (m_start m >=? last_end); [constructor|]; auto.
Qed.

(** *** The loop that writes the runs *)

(** After the first write the loop cannot fail: every run is added at the
    end of the paragraph. *)
Lemma build_fold (text : list ch) (l : list Match) :
  forall paragraph current_pos,
    for_each (build_step line_break text) l (paragraph, current_pos, false) =
    Ok (paragraph ++ map (@RunElement ch) (runs_from text current_pos l),
        last_pos current_pos l, false).
Proof.
  induction l as [|[[start end_] g] l IH]; intros paragraph current_pos.
  - simpl. now rewrite app_nil_r.
  - cbn [for_each runs_from last_pos build_step m_start m_end m_group
           fst snd].
    destruct (start >? current_pos); cbn [put_run bind]; rewrite IH;
      rewrite ?map_app; cbn [map app]; now rewrite <- ?app_assoc.
Qed.

Lemma build_fold_first (text : list ch) (m : Match) (l : list Match)
  (paragraph : list Element) :
  for_each (build_step line_break text) (m :: l) (paragraph, 0, true) =
  (p <- first_round line_break text m ;;
   Ok (p ++ map (@RunElement ch) (runs_from text (m_end m) l),
       last_pos (m_end m) l, false)).
Proof.
  destruct m as [[start end_] g].
  unfold first_round.
  cbn [for_each build_step m_start m_end m_group fst snd].
  destruct (start >? 0); cbn [put_run run_format run_start run_text bind].
  - destruct (format_first_run Plain _) as [p|e]; cbn [bind]; [|reflexivity].
    apply build_fold.
  - destruct (format_first_run Highlight _) as [p|e]; cbn [bind];
      [|reflexivity].
    apply build_fold.
Qed.

(** The paragraph written by [_apply_highlights], in terms of the matches
    kept by the overlap filter: only the round of the first match can
    raise. *)
Lemma apply_highlights_runs (paragraph : list Element) (text : list ch)
  (highlights : list (list ch)) :
  _apply_highlights ieq line_break paragraph text highlights =
  match accepted_from (-1) (sort_by_start (find_matches ieq text highlights))
  with
  | [] => Ok (set_text line_break 0 text)
  | m :: l =>
      p <- first_round line_break text m ;;
      Ok (p ++ map (@RunElement ch)
                 (runs_from text (m_end m) l ++
                  trailing_run text (last_pos (m_end m) l)))
  end.
Proof.
  unfold _apply_highlights. rewrite filter_overlaps_accepted.
  destruct (accepted_from (-1) _) as [|m l]; [reflexivity|].
  rewrite build_fold_first.
  destruct (first_round line_break text m) as [p|e]; cbn [bind];
    [|reflexivity].
  unfold trailing_run.
  destruct (last_pos (m_end m) l <? len text).
  - now rewrite map_app, app_assoc.
  - now rewrite app_nil_r.
Qed.

Lemma format_first_run_raises (f : Format) (p : list Element) (e : exn) :
  format_first_run f p = Raise e -> e = IndexError.
Proof.
  induction p as [|[r|b] p IH]; cbn [format_first_run]; intros H.
  - now injection H as <-.
  - discriminate.
  - destruct (format_first_run f p) as [q|e']; cbn [bind] in H;
      [discriminate|].
    injection H as <-. now apply IH.
Qed.

(** The call raises nothing but the [IndexError] of the first write. *)
Lemma apply_highlights_raises (paragraph : list Element) (text : list ch)
  (highlights : list (list ch)) (e : exn) :
  _apply_highlights ieq line_break paragraph text highlights = Raise e ->
  e = IndexError.
Proof.
  rewrite apply_highlights_runs.
  destruct (accepted_from (-1) _) as [|m l]; [discriminate|].
  unfold first_round.
  destruct (m_start m >? 0).
  - destruct (format_first_run Plain _) as [q|e'] eqn:Eq; cbn [bind];
      [discriminate|].
    intros H. injection H as <-. now apply format_first_run_raises in Eq.
  - destruct (format_first_run Highlight _) as [q|e'] eqn:Eq; cbn [bind];
      [discriminate|].
    intros H. injection H as <-. now apply format_first_run_raises in Eq.
Qed.

(** *** The content of a paragraph after [paragraph.text = t] *)

Lemma text_elements_plain (t : list ch) :
  forall start pos piece,
    Forall (fun c => line_break c = false) t ->
    text_elements line_break start pos piece t =
    piece_run start (pos + len t) (piece ++ t).
Proof.
  induction t as [|c t IH]; intros start pos piece Hall.
  - cbn [text_elements]. change (len (@nil ch)) with 0.
    now rewrite Z.add_0_r, app_nil_r.
  - inversion Hall as [|? ? Hc Ht]; subst.
    cbn [text_elements]. rewrite Hc, IH by exact Ht.
    rewrite <- app_assoc. cbn [app]. f_equal.
    unfold len. cbn [length]. lia.
Qed.

Lemma text_elements_inherited (t : list ch) :
  forall start pos piece,
    Forall (fun r => run_format r = Inherited)
      (runs (text_elements line_break start pos piece t)).
Proof.
  assert (Hpiece : forall start pos piece,
            Forall (fun r : Run => run_format r = Inherited)
              (runs (piece_run start pos piece))).
  { intros start pos [|c piece]; cbn; repeat constructor. }
  induction t as [|c t IH]; intros start pos piece; cbn [text_elements].
  - apply Hpiece.
  - destruct (line_break c); [|apply IH].
    destruct piece as [|d piece]; cbn [piece_run app runs].
    + apply IH.
    + constructor; [reflexivity | apply IH].
Qed.

Lemma format_first_run_formats (f : Format) (p : list Element) :
  forall p', format_first_run f p = Ok p' ->
             Exists (fun r => run_format r = f) (runs p').
Proof.
  induction p as [|[r|b] p IH]; intros p' H; cbn [format_first_run] in H.
  - discriminate.
  - injection H as <-. cbn [runs]. now left.
  - destruct (format_first_run f p) as [q|e]; cbn [bind] in H;
      [|discriminate].
    injection H as <-. cbn [runs]. now apply IH.
Qed.

(** *** Elements laid end to end *)

Lemma chain_le (a b : Z) (l : list Element) : chain a l b -> a <= b.
Proof. induction 1; lia. Qed.

Lemma chain_app (a b c : Z) (l1 l2 : list Element) :
  chain a l1 b -> chain b l2 c -> chain a (l1 ++ l2) c.
Proof.
  induction 1; intros H2; simpl; [exact H2|].
  constructor; auto.
Qed.

Lemma chain_one (a b : Z) (t : list ch) (f : Format) :
  a <= b -> chain a [RunElement (mkRun a b t f)] b.
Proof.
  intros Hle. apply (chain_cons (RunElement (mkRun a b t f)) [] b);
    [exact Hle|].
  apply chain_nil.
Qed.

Lemma chain_within (a b : Z) (l : list Element) :
  chain a l b ->
  Forall (fun e => a <= elem_start e /\ elem_end e <= b) l.
Proof.
  induction 1 as [a | e l b He Hc IH]; [constructor|].
  pose proof (chain_le _ _ _ Hc).
  constructor; [lia|].
  eapply Forall_impl; [|exact IH]. intros x [? ?]. lia.
Qed.

Lemma chain_sorted (a b : Z) (l : list Element) :
  chain a l b ->
  StronglySorted (fun x y => elem_start x <= elem_start y) l.
Proof.
  induction 1 as [a | e l b He Hc IH]; constructor; [exact IH|].
  eapply Forall_impl; [|apply (chain_within _ _ _ Hc)].
  intros x [? ?]. lia.
Qed.

Lemma chain_exclusive (a b : Z) (l : list Element) :
  chain a l b ->
  ForallOrdPairs (fun x y => forall p, ~ (covers x p /\ covers y p)) l.
Proof.
  induction 1 as [a | e l b He Hc IH]; constructor; [|exact IH].
  eapply Forall_impl; [|apply (chain_within _ _ _ Hc)].
  unfold covers. intros x [? ?] p. lia.
Qed.

Lemma chain_covers (a b : Z) (l : list Element) :
  chain a l b ->
  forall p, a <= p < b <-> Exists (fun e => covers e p) l.
Proof.
  induction 1 as [a | e l b He Hc IH]; intros p.
  - split; [lia | intros H; inversion H].
  - pose proof (chain_le _ _ _ Hc). split.
    + intros Hp. destruct (Z_lt_le_dec p (elem_end e)).
      * left. unfold covers. lia.
      * right. apply IH. lia.
    + intros H'. inversion H' as [? ? Hc1 | ? ? Hc2]; subst.
      * unfold covers in Hc1. lia.
      * apply IH in Hc2. lia.
Qed.

Lemma text_elements_chain (t : list ch) :
  forall start pos piece,
    start <= pos ->
    (piece = [] -> start = pos) ->
    chain start (text_elements line_break start pos piece t) (pos + len t).
Proof.
  assert (Hpiece : forall start pos (piece : list ch),
            start <= pos -> (piece = [] -> start = pos) ->
            chain start (piece_run start pos piece) pos).
  { intros start pos [|c piece] Hle Hnil; cbn [piece_run].
    - rewrite (Hnil eq_refl). constructor.
    - now apply chain_one. }
  induction t as [|c t IH]; intros start pos piece Hle Hnil;
    cbn [text_elements].
  - change (len (@nil ch)) with 0. rewrite Z.add_0_r. now apply Hpiece.
  - assert (Hlen : pos + len (c :: t) = pos + 1 + len t)
      by (unfold len; cbn [length]; lia).
    rewrite Hlen. destruct (line_break c).
    + apply (chain_app start pos); [now apply Hpiece|].
      apply (chain_cons (BreakElement pos)); cbn [elem_start elem_end];
        [lia|].
      apply IH; [lia | reflexivity].
    + apply IH; [lia|]. intros H. now apply app_eq_nil in H as [_ H].
Qed.

Lemma set_text_chain (start : Z) (t : list ch) :
  chain start (set_text line_break start t) (start + len t).
Proof. apply text_elements_chain; [lia | reflexivity]. Qed.

Lemma format_first_run_chain (f : Format) (a b : Z) (p : list Element) :
  chain a p b ->
  forall p', format_first_run f p = Ok p' -> chain a p' b.
Proof.
  induction 1 as [a | e l b He Hc IH]; intros p' H;
    cbn [format_first_run] in H; [discriminate|].
  destruct e as [r|pos].
  - injection H as <-.
    apply (chain_cons (RunElement (with_format f r))); assumption.
  - destruct (format_first_run f l) as [q|e]; cbn [bind] in H;
      [|discriminate].
    injection H as <-.
    apply (chain_cons (BreakElement pos)); [exact He | now apply IH].
Qed.

Lemma len_slice (text : list ch) (a b : Z) :
  0 <= a -> a <= b -> b <= len text -> len (slice text a b) = b - a.
Proof.
  unfold slice, len. intros H0 Hab Hb.
  rewrite length_firstn, length_skipn. lia.
Qed.

Lemma runs_from_chain (text : list ch) (l : list Match) :
  forall lo hi,
    separated lo l hi ->
    chain lo (map (@RunElement ch) (runs_from text lo l)) (last_pos lo l) /\
    last_pos lo l <= hi.
Proof.
  induction l as [|m l IH]; intros lo hi Hsep.
  - simpl in *. split; [constructor | exact Hsep].
  - destruct Hsep as (Hlo & Hm & Hrest).
    destruct (IH _ _ Hrest) as [Hchain Hhi].
    split; [|exact Hhi].
    cbn [runs_from last_pos]. rewrite map_app. cbn [map].
    assert (Hhl : chain (m_start m)
                    (RunElement
                       (mkRun (m_start m) (m_end m) (m_group m) Highlight)
                     :: map (@RunElement ch) (runs_from text (m_end m) l))
                    (last_pos (m_end m) l)).
    { apply (chain_cons
               (RunElement
                  (mkRun (m_start m) (m_end m) (m_group m) Highlight)));
        assumption. }
    destruct (m_start m >? lo) eqn:E; cbn [map app].
    + apply (chain_app lo (m_start m) _ [_]); [|exact Hhl].
      apply chain_one. lia.
    + assert (lo = m_start m) as -> by lia. exact Hhl.
Qed.

(** The matches kept, for any text and terms, follow one another inside the
    text. *)
Lemma kept_matches_separated (text : list ch) (highlights : list (list ch)) :
  separated 0
    (accepted_from (-1) (sort_by_start (find_matches ieq text highlights)))
    (len text) /\
  Forall (in_text text)
    (accepted_from (-1) (sort_by_start (find_matches ieq text highlights))).
Proof.
  assert (Hall : Forall (in_text text)
                   (sort_by_start (find_matches ieq text highlights))).
  { eapply Permutation_Forall; [apply sort_by_start_perm|].
    apply find_matches_in_text. }
  split; [|now apply accepted_Forall].
  pose proof (len_nonneg text).
  apply (accepted_separated text _ (-1) Hall). lia.
Qed.

Lemma first_round_chain (text : list ch) (m : Match) (p : list Element) :
  in_text text m ->
  first_round line_break text m = Ok p ->
  chain 0 p (m_end m).
Proof.
  intros (H0 & Hse & Hen & Hg) H. unfold first_round in H.
  destruct (m_start m >? 0) eqn:E.
  - destruct (format_first_run Plain _) as [q|e] eqn:Eq; cbn [bind] in H;
      [|discriminate].
    injection H as <-.
    apply (chain_app 0 (m_start m)).
    + apply (format_first_run_chain Plain 0 (m_start m) _) in Eq; [exact Eq|].
      pose proof (set_text_chain 0 (slice text 0 (m_start m))) as Hc.
      rewrite len_slice in Hc by lia.
      now rewrite Z.sub_0_r in Hc.
    + now apply chain_one.
  - assert (Hs : m_start m = 0) by lia.
    apply (format_first_run_chain Highlight 0 (m_end m) _) in H; [exact H|].
    pose proof (set_text_chain (m_start m) (m_group m)) as Hc.
    rewrite Hg in Hc at 2. rewrite len_slice in Hc by lia.
    rewrite Hs in Hc at 1.
    now replace (m_start m + (m_end m - m_start m)) with (m_end m) in Hc
      by lia.
Qed.

(** Whenever the call returns, the runs and line breaks of the paragraph
    lie end to end from 0 to [len(text)]. *)
Lemma apply_highlights_chain (paragraph p : list Element) (text : list ch)
  (highlights : list (list ch)) :
  _apply_highlights ieq line_break paragraph text highlights = Ok p ->
  chain 0 p (len text).
Proof.
  rewrite apply_highlights_runs.
  destruct (kept_matches_separated text highlights) as [Hsep Hin].
  destruct (accepted_from (-1) _) as [|m l].
  - intros H. injection H as <-. apply (set_text_chain 0 text).
  - destruct (first_round line_break text m) as [q|e] eqn:Eq; cbn [bind];
      [|discriminate].
    intros H. injection H as <-.
    inversion Hin as [|? ? Hm _]; subst.
    destruct Hsep as (_ & _ & Hsep).
    destruct (runs_from_chain text _ _ _ Hsep) as [Hchain Hhi].
    apply (chain_app 0 (m_end m)); [now apply (first_round_chain text)|].
    rewrite map_app.
    apply (chain_app (m_end m) (last_pos (m_end m) l)); [exact Hchain|].
    unfold trailing_run.
    destruct (last_pos (m_end m) l <? len text) eqn:E; cbn [map].
    + apply chain_one. lia.
    + apply Z.ltb_ge in E.
      assert (last_pos (m_end m) l = len text) as -> by lia. constructor.
Qed.

(** Every occurrence of the pattern is reported or starts inside a
    reported match that begins before it. *)
Lemma finditer_from_complete (pattern rest : list ch) :
  forall (skip : nat) (pos : Z) (p : nat),
    (skip <= p <= length rest)%nat ->
    match_here ieq pattern (skipn p rest) = true ->
    exists m, In m (finditer_from ieq pattern skip pos rest) /\
              m_start m <= pos + Z.of_nat p /\
              (pos + Z.of_nat p < m_end m \/ m_start m = pos + Z.of_nat p).
Proof.
  induction rest as [|c rest IH]; intros skip pos p Hp Hm.
  - simpl in Hp. assert (p = 0%nat) as -> by lia.
    assert (skip = 0%nat) as -> by lia.
    destruct pattern; [|discriminate]. cbn [finditer_from].
    eexists. split; [left; reflexivity|].
    unfold m_start, m_end. cbn [fst snd]. lia.
  - assert (Hnext : forall k p',
      p = S p' -> (k <= p')%nat ->
      exists m, In m (finditer_from ieq pattern k (pos + 1) rest) /\
                m_start m <= pos + Z.of_nat p /\
                (pos + Z.of_nat p < m_end m \/ m_start m = pos + Z.of_nat p)).
    { intros k p' -> Hk. simpl in Hp, Hm.
      destruct (IH k (pos + 1) p' ltac:(lia) Hm) as [m (Hin & H1 & H2)].
      exists m. split; [exact Hin|]. lia. }
    cbn [finditer_from]. destruct skip as [|k].
    + destruct (match_here ieq pattern (c :: rest)) eqn:E.
      * destruct (Nat.lt_ge_cases p (Nat.max 1 (length pattern))) as [Hin | Hout].
        -- eexists. split; [left; reflexivity|].
           unfold m_start, m_end, len. cbn [fst snd]. lia.
        -- destruct p as [|p']; [lia|].
           destruct (Hnext (length pattern - 1)%nat p' eq_refl ltac:(lia))
             as [m (Hin & H1 & H2)].
           exists m. split; [right; exact Hin | lia].
      * destruct p as [|p']; [simpl in Hm; congruence|].
        apply (Hnext 0%nat p' eq_refl). lia.
    + destruct p as [|p']; [lia|].
      apply (Hnext k p' eq_refl). lia.
Qed.

End Highlights.

(** C1. The claim holds of the spans wherever the merger returns, and the
    merger does not return for every input: on ["ab"] with the empty term
    the first match kept is the zero-width match at 0, the first write
    assigns the empty string to [paragraph.text], which leaves the paragraph
    without a run, and [paragraph.runs[0]] raises [IndexError].  No span is
    produced, so none covers the positions 0 and 1 of the text. *)
Theorem no_spans_for_empty_first_write :
  filter_overlaps
    (sort_by_start (find_matches ascii_ieq (py "ab") [empty_str])) =
    [(0, 0, []); (1, 1, []); (2, 2, [])] /\
  set_text ascii_line_break 0 empty_str = [] /\
  format_first_run Highlight (set_text ascii_line_break 0 empty_str) =
    Raise IndexError /\
  computeSpans ascii_ieq ascii_line_break (py "ab") [empty_str] =
    Raise IndexError.
Proof. repeat split; vm_compute; reflexivity. Qed.

(** C3. The candidates are all the matches, sorted by start; the filter
    sweeps them from left to right and keeps a match exactly when its start
    is at or after the end of the last match kept; a match that is not kept
    is dropped as it is, nothing is merged.  On ["abcdef"] with the terms
    ["abc"] and ["bcd"], the match (0,3) is kept, (1,4) is dropped and the
    spans are (0,3,highlighted), (3,6,plain). *)
Theorem overlap_resolution :
  (forall (ch : Type) (ieq : ch -> ch -> bool) (text : list ch)
          (highlights : list (list ch)),
      let candidates := sort_by_start (find_matches ieq text highlights) in
      let accepted := filter_overlaps candidates in
      Permutation (find_matches ieq text highlights) candidates /\
      StronglySorted (fun x y => m_start x <= m_start y) candidates /\
      sweep (-1) candidates accepted) /\
  find_matches ascii_ieq (py "abcdef") [py "abc"; py "bcd"] =
    [(0, 3, py "abc"); (1, 4, py "bcd")] /\
  filter_overlaps
    (sort_by_start (find_matches ascii_ieq (py "abcdef") [py "abc"; py "bcd"]))
    = [(0, 3, py "abc")] /\
  computeSpans ascii_ieq ascii_line_break (py "abcdef") [py "abc"; py "bcd"] =
    Ok [(0, 3, true); (3, 6, false)].
Proof.
  split; [|repeat split; vm_compute; reflexivity].
  intros ch ieq text highlights candidates accepted.
  split; [apply sort_by_start_perm|].
  split; [apply sort_by_start_sorted|].
  unfold accepted. rewrite filter_overlaps_accepted. apply accepted_sweep.
Qed.

(** C5, as stated, gives the last span of ["The Lord is good"] the end 17;
    the text has 16 characters and the span ends at 16. *)
Lemma lord_last_span_not_17 :
  computeSpans ascii_ieq ascii_line_break (py "The Lord is good") [py "lord"]
  <> Ok [(0, 4, false); (4, 8, true); (8, 17, false)].
Proof. vm_compute. discriminate. Qed.

(** C5, amended. Every match is a range of the text as long as its term
    whose characters equal those of the term up to case; every place where
    the term occurs is the start of a match or lies inside a match that
    starts before it; and ["The Lord is good"] with the term ["lord"] gives
    the spans (0,4,plain), (4,8,highlighted), (8,16,plain). *)
Theorem case_insensitive_literal_match :
  (forall (ch : Type) (ieq : ch -> ch -> bool) (text : list ch)
          (highlights : list (list ch)),
      Forall (fun m => exists h, In h highlights /\ occurrence ieq h text m)
        (find_matches ieq text highlights)) /\
  (forall (ch : Type) (ieq : ch -> ch -> bool) (text h : list ch) (p : nat),
      (p <= length text)%nat ->
      match_here ieq h (skipn p text) = true ->
      exists m, In m (finditer ieq h text) /\
                m_start m <= Z.of_nat p /\
                (Z.of_nat p < m_end m \/ m_start m = Z.of_nat p)) /\
  ascii_ieq "l"%char "L"%char = true /\
  len (py "The Lord is good") = 16 /\
  find_matches ascii_ieq (py "The Lord is good") [py "lord"] =
    [(4, 8, py "Lord")] /\
  computeSpans ascii_ieq ascii_line_break (py "The Lord is good") [py "lord"] =
    Ok [(0, 4, false); (4, 8, true); (8, 16, false)].
Proof.
  split; [|split; [|repeat split; vm_compute; reflexivity]].
  - intros ch ieq text highlights. apply find_matches_sound.
  - intros ch ieq text h p Hp Hm.
    destruct (finditer_from_complete ieq h text 0%nat 0 p ltac:(lia) Hm)
      as [m (Hin & H1 & H2)].
    exists m. split; [exact Hin | lia].
Qed.

Lemma case_insensitive_literal_match_witness :
  exists m, In m (finditer ascii_ieq (py "LORD") (py "The Lord is good")) /\
            m_start m <= Z.of_nat 4 /\
            (Z.of_nat 4 < m_end m \/ m_start m = Z.of_nat 4).
Proof.
  apply (proj1 (proj2 case_insensitive_literal_match) ascii ascii_ieq
           (py "The Lord is good") (py "LORD") 4%nat).
  - vm_compute. lia.
  - vm_compute. reflexivity.
Defined.

(** The part of C6 on terms longer than the text: such a term matches
    nowhere and the outcome is that of the terms without it. *)
Lemma long_term_finds_nothing {ch : Type} (ieq : ch -> ch -> bool)
  (line_break : ch -> bool) (paragraph : list (Element ch)) (text : list ch)
  (hs1 : list (list ch)) (h : list ch) (hs2 : list (list ch)) :
  len h > len text ->
  term_ignored ieq line_break paragraph text hs1 h hs2.
Proof.
  intros Hlen.
  assert (Hnone : finditer ieq h text = []).
  { apply finditer_from_long. unfold len in Hlen. lia. }
  split; [exact Hnone|].
  unfold _apply_highlights, find_matches.
  rewrite !flat_map_app. cbn [flat_map]. rewrite Hnone. reflexivity.
Qed.

(** The empty pattern matches at every position from 0 to [len(text)]. *)
Lemma empty_term_matches_everywhere {ch : Type} (ieq : ch -> ch -> bool)
  (text : list ch) :
  finditer ieq [] text =
  map (fun i => (Z.of_nat i, Z.of_nat i, [])) (seq 0 (S (length text))).
Proof.
  unfold finditer. rewrite finditer_from_empty.
  apply map_ext. intros i. reflexivity.
Qed.

(** C6. The merger is not total and the empty term is not ignored.  On
    ["ab"] the empty term matches, with zero width, at 0, 1 and 2; the call
    with the empty term alone raises [IndexError], where the call with no
    term writes the text as one run; and after the term ["a"], where the
    call returns, the empty term adds two runs of zero width in the
    highlight format. *)
Theorem empty_term_raises_index_error :
  finditer ascii_ieq empty_str (py "ab") =
    [(0, 0, []); (1, 1, []); (2, 2, [])] /\
  _apply_highlights ascii_ieq ascii_line_break [] (py "ab") [empty_str] =
    Raise IndexError /\
  _apply_highlights ascii_ieq ascii_line_break [] (py "ab") [] =
    Ok [RunElement (mkRun 0 2 (py "ab") Inherited)] /\
  computeSpans ascii_ieq ascii_line_break (py "ab") [py "a"; empty_str] =
    Ok [(0, 1, true); (1, 1, true); (1, 2, false); (2, 2, true)] /\
  computeSpans ascii_ieq ascii_line_break (py "ab") [py "a"] =
    Ok [(0, 1, true); (1, 2, false)].
Proof. repeat split; vm_compute; reflexivity. Qed.

End MergerTheorems.

(** ** Document builder *)

Module BuilderTheorems.
Import PyStr Builder.

(** A loop whose body only appends slides that satisfy [P] only appends
    such slides. *)
Lemma for_each_appends {A : Type} (P : Slide -> Prop)
  (body : list Slide -> A -> result (list Slide)) :
  (forall prs a prs', body prs a = Ok prs' ->
                      exists new, prs' = prs ++ new /\ Forall P new) ->
  forall l prs prs',
    for_each body l prs = Ok prs' ->
    exists new, prs' = prs ++ new /\ Forall P new.
Proof.
  intros Hbody l. induction l as [|a l IH]; intros prs prs' H.
  - injection H as <-. exists []. now rewrite app_nil_r.
  - cbn [for_each] in H. unfold bind in H.
    destruct (body prs a) as [prs1|e] eqn:E; [|discriminate].
    destruct (Hbody _ _ _ E) as [new1 [-> H1]].
    destruct (IH _ _ H) as [new2 [-> H2]].
    exists (new1 ++ new2). rewrite app_assoc. split; [reflexivity|].
    apply Forall_app. now split.
Qed.

Section Create.

Variable split_long_text : str -> list str.

Lemma verse_step_appends (prs : list Slide) (verse : Verse)
  (prs' : list Slide) :
  verse_step split_long_text prs verse = Ok prs' ->
  exists new, prs' = prs ++ new /\ Forall is_verse_slide new.
Proof.
  unfold verse_step, bind.
  destruct (item "text" (verse_text verse)) as [text|e]; [|discriminate].
  apply for_each_appends.
  intros p [i part] p'.
  destruct (item "reference" (verse_reference verse)) as [reference|e];
    [|discriminate].
  unfold add_verse_slide.
  destruct (match verse_highlights verse with
            | Some (h :: hs) => _
            | _ => _
            end) as [paragraph|e]; [|discriminate].
  intros H. injection H as <-.
  eexists. split; [reflexivity|]. repeat constructor.
Qed.

(** C9. A section whose verses are missing or empty adds no slide, and a
    section slide is added only by a section with at least one verse when no
    custom title is given. *)
Theorem section_without_verses_adds_nothing (custom_title : option str)
  (prs : list Slide) (section_data : SectionData) :
  (section_verses section_data = None \/
   section_verses section_data = Some [] ->
   section_step split_long_text custom_title prs section_data = Ok prs) /\
  (forall prs',
      section_step split_long_text custom_title prs section_data = Ok prs' ->
      exists new,
        prs' = prs ++ new /\
        forall name,
          In (SectionSlide name) new ->
          (exists v vs, section_verses section_data = Some (v :: vs)) /\
          opt_truthy custom_title = false /\
          section_name section_data = Some name).
Proof.
  split.
  - intros [H | H]; unfold section_step; rewrite H; reflexivity.
  - intros prs'. unfold section_step.
    destruct (section_verses section_data) as [[|v vs]|] eqn:Ev;
      cbn [opt_truthy truthy].
    + intros H. injection H as <-. exists []. rewrite app_nil_r.
      split; [reflexivity | intros name []].
    + destruct (opt_truthy custom_title) eqn:Ec; cbn [negb bind item].
      * intros H.
        destruct (for_each_appends is_verse_slide _
                    (verse_step_appends) _ _ _ H) as [new [-> Hall]].
        exists new. split; [reflexivity|]. intros name Hin.
        rewrite Forall_forall in Hall. destruct (Hall _ Hin).
      * destruct (section_name section_data) as [name0|];
          cbn [item bind]; [|discriminate].
        intros H.
        destruct (for_each_appends is_verse_slide _
                    (verse_step_appends) _ _ _ H) as [new [-> Hall]].
        unfold add_section_slide. rewrite <- app_assoc.
        exists ([SectionSlide name0] ++ new). split; [reflexivity|].
        intros name [Hin | Hin].
        -- injection Hin as <-. split; [now exists v, vs | now split].
        -- rewrite Forall_forall in Hall. destruct (Hall _ Hin).
    + intros H. injection H as <-. exists []. rewrite app_nil_r.
      split; [reflexivity | intros name []].
Qed.

(** Sections without verses leave the presentation as it is. *)
Lemma sections_without_verses (custom_title : option str)
  (l : list SectionData) (prs : list Slide) :
  Forall (fun section_data =>
            opt_truthy (section_verses section_data) = false) l ->
  for_each (section_step split_long_text custom_title) l prs = Ok prs.
Proof.
  induction 1 as [|section_data l H _ IH]; [reflexivity|].
  cbn [for_each]. unfold section_step at 1. rewrite H. exact IH.
Qed.

Variable sanitize_filename : str -> str.
Variable FS : Type.
Variable save : list Slide -> str -> FS -> FS * bool.

(** C10. With [None] or the empty dictionary for [data] the call returns
    [None], leaves the file system as it was and only prints the error
    line. *)
Theorem no_data_returns_none (data : option Data)
  (output_file custom_title : option str) (fs : FS) :
  data = None \/ data = Some (mkData None None None) ->
  create_presentation split_long_text sanitize_filename FS save
    data output_file custom_title fs = (Ok None, fs, [NoDataProvided]).
Proof.
  intros [-> | ->]; reflexivity.
Qed.

End Create.

Lemma section_without_verses_adds_nothing_witness :
  section_step split_default None [TitleSlide (py "T") (py "S")]
    (mkSectionData (Some (py "Grace")) (Some [])) =
  Ok [TitleSlide (py "T") (py "S")].
Proof.
  apply (proj1 (section_without_verses_adds_nothing split_default None
                  [TitleSlide (py "T") (py "S")]
                  (mkSectionData (Some (py "Grace")) (Some [])))).
  right. reflexivity.
Defined.

Lemma no_data_returns_none_witness :
  create_presentation split_default (fun s => s) (list (str * list Slide))
    save_always (Some (mkData None None None)) None None [] =
  (Ok None, [], [NoDataProvided]).
Proof.
  apply (no_data_returns_none split_default (fun s => s)
           (list (str * list Slide)) save_always
           (Some (mkData None None None)) None None []).
  right. reflexivity.
Defined.

(** A run of the builder: the section without verses gives no slide, the
    other one a section slide and a verse slide. *)
Example create_presentation_run :
  create_presentation split_default (fun s => s) (list (str * list Slide))
    save_always
    (Some (mkData (Some (py "Hope")) None
             (Some [mkSectionData (Some (py "Empty")) (Some []);
                    mkSectionData (Some (py "Psalms"))
                      (Some [mkVerse (Some (py "Ps 23:1"))
                               (Some (py "The LORD is my shepherd"))
                               (Some [py "lord"])])])))
    None None [] =
  (Ok (Some (py "Hope.pptx")),
   [(py "Hope.pptx",
     [TitleSlide (py "Hope") (py "Selected Scriptures");
      SectionSlide (py "Psalms");
      VerseSlide
        [Merger.RunElement (Merger.mkRun 0 4 (py "The ") Merger.Plain);
         Merger.RunElement (Merger.mkRun 4 8 (py "LORD") Merger.Highlight);
         Merger.RunElement
           (Merger.mkRun 8 23 (py " is my shepherd") Merger.Plain)]
        (py "Ps 23:1") None])],
   [CreatedSuccessfully (py "Hope.pptx")]).
Proof. vm_compute. reflexivity. Qed.

(** A run of the builder on a verse whose highlight terms hold the empty
    string: the [IndexError] of the merger leaves the call, no file is
    written and nothing is printed. *)
Example create_presentation_raises :
  create_presentation split_default (fun s => s) (list (str * list Slide))
    save_always
    (Some (mkData (Some (py "Hope")) None
             (Some [mkSectionData (Some (py "Psalms"))
                      (Some [mkVerse (Some (py "Ps 23:1"))
                               (Some (py "The LORD is my shepherd"))
                               (Some [empty_str])])])))
    None None [] =
  (Raise IndexError, [], []).
Proof. vm_compute. reflexivity. Qed.

End BuilderTheorems.

Module SegmenterExamples.
Import PyStr Segmenter.

Example split_ex :
  split_long_text (py "Ask. Seek! Knock? Enter") 10 =
  [py "Ask.Seek!"; py "Knock?"; py "Enter"].
Proof. reflexivity. Qed.

Example split_long_unit_ex :
  split_long_text (py "Blessed are the meek. Amen") 8 =
  [py "Blessed are the meek."; py "Amen"].
Proof. reflexivity. Qed.

End SegmenterExamples.

(** * Further properties *)

(** ** Text segmenter *)

Module SegmenterMore.
Import PyStr Segmenter PyStrFacts SegmenterTheorems Observations.

(** *** Characters kept *)

Lemma kept_nonspace (s : str) :
  filter kept s =
  filter (fun c => negb (Ascii.eqb c "|"%char)) (nonspace_chars s).
Proof.
  unfold nonspace_chars. rewrite filter_filter.
  apply filter_ext. intros c. unfold kept. apply andb_comm.
Qed.

Lemma kept_without_mark (s : str) :
  filter (fun c => negb (Ascii.eqb c "|"%char)) (filter kept s) =
  filter kept s.
Proof.
  rewrite filter_filter. apply filter_ext. intros c. unfold kept.
  destruct (isspace c), (Ascii.eqb c "|"%char); reflexivity.
Qed.

(** X1. For every text and every bound, the chunks joined hold, in order,
    exactly the characters of the text that are neither whitespace nor
    ['|']: no other character is lost, added or moved. *)
Theorem chunks_keep_characters (text : str) (max_length : Z) :
  filter kept (concat (split_long_text text max_length)) = filter kept text.
Proof.
  unfold split_long_text.
  destruct (len text <=? max_length).
  - cbn [concat]. now rewrite app_nil_r.
  - pose proof (split_parts_nonspace text max_length) as H.
    destruct (split_parts text max_length) as [|p parts].
    + cbn [concat]. now rewrite app_nil_r.
    + rewrite kept_nonspace, H. apply kept_without_mark.
Qed.

(** X2. On a text that holds no ['|'], the chunks joined hold every character
    of the text that is not whitespace, in order. *)
Theorem characters_kept_without_mark (text : str) (max_length : Z) :
  ~ In "|"%char text -> rejoin_preserves text max_length.
Proof.
  intros Hno. unfold rejoin_preserves, split_long_text.
  destruct (len text <=? max_length).
  - cbn [concat]. now rewrite app_nil_r.
  - pose proof (split_parts_nonspace text max_length) as H.
    destruct (split_parts text max_length) as [|p parts].
    + cbn [concat]. now rewrite app_nil_r.
    + rewrite H. now apply kept_without_pipe.
Qed.

Lemma characters_kept_without_mark_witness :
  rejoin_preserves (py "Ask. Seek! Knock? Enter") 10.
Proof.
  apply (characters_kept_without_mark (py "Ask. Seek! Knock? Enter") 10).
  intros H. vm_compute in H.
  repeat (destruct H as [H | H]; [discriminate H|]). exact H.
Defined.

(** *** Chunks are trimmed *)

Lemma lstrip_snoc (a : str) (c : ascii) :
  isspace c = false -> lstrip (a ++ [c]) = lstrip a ++ [c].
Proof.
  intros Hc. induction a as [|x a IH]; simpl.
  - now rewrite Hc.
  - destruct (isspace x); [exact IH | reflexivity].
Qed.

Lemma lstrip_idem (s : str) : lstrip (lstrip s) = lstrip s.
Proof.
  induction s as [|c s IH]; [reflexivity|]. simpl.
  destruct (isspace c) eqn:E; [exact IH|]. simpl. now rewrite E.
Qed.

Lemma lstrip_head (s : str) :
  lstrip s = [] \/ exists c t, lstrip s = c :: t /\ isspace c = false.
Proof.
  induction s as [|c s IH]; [now left|]. simpl.
  destruct (isspace c) eqn:E; [exact IH|].
  right. now exists c, s.
Qed.

Lemma strip_shape (s : str) :
  strip s = [] \/
  exists c u, strip s = c :: rev u /\ isspace c = false /\ lstrip u = u.
Proof.
  unfold strip, rstrip.
  destruct (lstrip_head s) as [-> | (c & t & -> & Hc)]; [now left|].
  right. cbn [rev]. rewrite (lstrip_snoc _ _ Hc), rev_app_distr.
  exists c, (lstrip (rev t)). cbn [rev app].
  split; [reflexivity | split; [exact Hc | apply lstrip_idem]].
Qed.

Lemma strip_idem (s : str) : strip (strip s) = strip s.
Proof.
  destruct (strip_shape s) as [-> | (c & u & -> & Hc & Hu)]; [reflexivity|].
  unfold strip, rstrip. cbn [lstrip]. rewrite Hc. cbn [rev].
  rewrite rev_involutive, (lstrip_snoc _ _ Hc), Hu, rev_app_distr.
  reflexivity.
Qed.

Lemma loop_parts_all (P : str -> Prop) (max_length : Z) (l : list str) :
  (forall s, P (strip s)) ->
  forall parts current_part,
    Forall P parts ->
    Forall P (fst (fold_left (loop_step max_length) l (parts, current_part))).
Proof.
  intros HP. induction l as [|sentence l IH]; intros parts current_part Hall.
  - exact Hall.
  - cbn [fold_left]. unfold loop_step at 2.
    destruct (len (current_part ++ sentence) <=? max_length);
      [now apply IH|].
    apply IH. destruct (truthy current_part); [|exact Hall].
    apply Forall_app. split; [exact Hall|]. now repeat constructor.
Qed.

Lemma split_parts_all (P : str -> Prop) (text : str) (max_length : Z) :
  (forall s, P (strip s)) -> Forall P (split_parts text max_length).
Proof.
  intros HP. unfold split_parts.
  pose proof (loop_parts_all P max_length (sentences_of text) HP
                (@nil str) (@nil ascii : str) (Forall_nil _)) as H.
  destruct (fold_left (loop_step max_length) (sentences_of text) _)
    as [parts current_part].
  cbn [fst] in H. destruct (truthy current_part); [|exact H].
  apply Forall_app. split; [exact H|]. now repeat constructor.
Qed.

(** X3. A chunk is the text itself or has no whitespace at either end. *)
Theorem chunks_are_trimmed (text : str) (max_length : Z) (chunk : str) :
  In chunk (split_long_text text max_length) ->
  chunk = text \/ strip chunk = chunk.
Proof.
  unfold split_long_text.
  destruct (len text <=? max_length); [intros [<- | []]; now left|].
  pose proof (split_parts_all (fun c => strip c = c) text max_length
                strip_idem) as Hall.
  destruct (split_parts text max_length) as [|p parts];
    [intros [<- | []]; now left|].
  intros Hin. right. rewrite Forall_forall in Hall. now apply Hall.
Qed.

Lemma chunks_are_trimmed_witness :
  py "Seek!" = py "Ask.  Seek!  Knock?" \/ strip (py "Seek!") = py "Seek!".
Proof.
  apply (chunks_are_trimmed (py "Ask.  Seek!  Knock?") 6 (py "Seek!")).
  vm_compute. right. left. reflexivity.
Defined.

(** *** Chunks and units *)

Lemma split_length (sep : ascii) (s : str) :
  (1 <= length (split sep s))%nat.
Proof.
  induction s as [|c s IH]; simpl; [lia|].
  destruct (Ascii.eqb c sep); simpl; [lia|].
  destruct (split sep s); simpl in *; lia.
Qed.

Lemma loop_count (max_length : Z) (l : list str) :
  forall parts current_part,
    (length (fst (fold_left (loop_step max_length) l (parts, current_part))) +
     (if truthy (snd (fold_left (loop_step max_length) l
                        (parts, current_part)))
      then 1 else 0)
     <= length parts + (if truthy current_part then 1 else 0) + length l)%nat.
Proof.
  induction l as [|sentence l IH]; intros parts current_part.
  - cbn [fold_left fst snd length]. lia.
  - cbn [fold_left length]. unfold loop_step at 2 4.
    destruct (len (current_part ++ sentence) <=? max_length).
    + eapply Nat.le_trans; [apply IH|].
      destruct (truthy (current_part ++ sentence)), (truthy current_part);
        lia.
    + eapply Nat.le_trans; [apply IH|].
      destruct (truthy current_part), (truthy sentence);
        rewrite ?length_app; cbn [length]; lia.
Qed.

(** X4. The segmenter never returns more chunks than the text has sentence
    units. *)
Theorem chunks_at_most_units (text : str) (max_length : Z) :
  (length (split_long_text text max_length) <= length (sentences_of text))%nat.
Proof.
  pose proof (split_length "|"%char (mark_sentences text)) as Hunits.
  fold (sentences_of text) in Hunits.
  unfold split_long_text.
  destruct (len text <=? max_length); [exact Hunits|].
  unfold split_parts.
  pose proof (loop_count max_length (sentences_of text) (@nil str)
                (@nil ascii : str)) as H.
  destruct (fold_left (loop_step max_length) (sentences_of text) _)
    as [parts current_part].
  cbn [fst snd length truthy] in H.
  destruct (truthy current_part).
  - destruct parts as [|p parts]; cbn [app]; [exact Hunits|].
    cbn [length] in *. rewrite length_app. cbn [length]. lia.
  - destruct parts as [|p parts]; [exact Hunits | cbn [length] in *; lia].
Qed.

(** *** Units hold no sentence delimiter *)

Lemma has_pair_tail (a b c : ascii) (s : str) :
  has_pair a b s = true -> has_pair a b (c :: s) = true.
Proof.
  intros H. destruct s as [|y t]; [discriminate|].
  cbn [has_pair] in *. rewrite H. apply orb_true_r.
Qed.

Lemma has_pair_head (a b x : ascii) (s : str) :
  has_pair a b (x :: s) = true ->
  (x = a /\ exists t, s = b :: t) \/ has_pair a b s = true.
Proof.
  destruct s as [|y t]; [discriminate|].
  change (has_pair a b (x :: y :: t))
    with ((Ascii.eqb x a && Ascii.eqb y b) || has_pair a b (y :: t)).
  intros H. apply orb_prop in H as [H | H]; [left | now right].
  apply andb_prop in H as [Hx Hy].
  apply Ascii.eqb_eq in Hx, Hy. subst. split; [reflexivity | now exists t].
Qed.

(** A replacement leaves every character as it is or turns a space into
    ['|']. *)
Lemma replace_from_pointwise (a : ascii) (s : str) :
  Forall2 (fun i o => o = i \/ (i = " "%char /\ o = "|"%char)) s
    (replace_from [a; " "%char] [a; "|"%char] 0 s) /\
  Forall2 (fun i o => o = i \/ (i = " "%char /\ o = "|"%char)) (tl s)
    (replace_from [a; " "%char] [a; "|"%char] 1 s).
Proof.
  induction s as [|c rest [IH0 IH1]]; [split; constructor|].
  split; [|exact IH0].
  cbn [replace_from].
  destruct (starts_with [a; " "%char] (c :: rest)) eqn:E.
  - apply starts_with_pair in E as [rest' E]. injection E as -> ->.
    cbn [length Nat.sub app]. cbn [tl] in IH1.
    constructor; [now left|].
    destruct rest' as [|d rest''];
      cbn [replace_from] in *; constructor; auto.
  - constructor; [now left | exact IH0].
Qed.

Lemma pointwise_pair (x : ascii) (s out : str) :
  x <> "|"%char ->
  Forall2 (fun i o => o = i \/ (i = " "%char /\ o = "|"%char)) s out ->
  has_pair x " "%char out = true -> has_pair x " "%char s = true.
Proof.
  intros Hx H. induction H as [|i o s out Hio Hrest IH]; [discriminate|].
  intros Hp. apply has_pair_head in Hp as [[-> [t ->]] | Hp].
  - inversion Hrest as [|i2 o2 s2 out2 Hio2 Hrest2]; subst.
    destruct Hio as [<- | [_ Hbad]]; [|contradiction].
    destruct Hio2 as [<- | [_ Hbad]]; [|discriminate].
    cbn [has_pair]. now rewrite !Ascii.eqb_refl.
  - apply has_pair_tail. now apply IH.
Qed.

Lemma replace_from_no_pair (a : ascii) (s : str) :
  a <> "|"%char ->
  has_pair a " "%char (replace_from [a; " "%char] [a; "|"%char] 0 s) = false /\
  has_pair a " "%char (replace_from [a; " "%char] [a; "|"%char] 1 s) = false.
Proof.
  intros Ha. induction s as [|c rest [IH0 IH1]]; [split; reflexivity|].
  split; [|exact IH0].
  cbn [replace_from].
  destruct (starts_with [a; " "%char] (c :: rest)) eqn:E.
  - apply starts_with_pair in E as [rest' E]. injection E as -> ->.
    cbn [length Nat.sub app].
    destruct (has_pair a " "%char
                (a :: "|"%char
                   :: replace_from [a; " "%char] [a; "|"%char] 1
                        (" "%char :: rest'))) eqn:Hp; [|reflexivity].
    apply has_pair_head in Hp as [[_ [t Ht]] | Hp]; [discriminate|].
    apply has_pair_head in Hp as [[Hbad _] | Hp]; [now symmetry in Hbad|].
    congruence.
  - destruct (has_pair a " "%char
                (c :: replace_from [a; " "%char] [a; "|"%char] 0 rest))
      eqn:Hp; [|reflexivity].
    apply has_pair_head in Hp as [[-> [t Ht]] | Hp]; [|congruence].
    pose proof (proj1 (replace_from_pointwise a rest)) as Hpw.
    rewrite Ht in Hpw.
    inversion Hpw as [|i o s' out' Hio Hrest']; subst.
    destruct Hio as [<- | [_ Hbad]]; [|discriminate].
    cbn [starts_with] in E. rewrite !Ascii.eqb_refl in E. discriminate.
Qed.

Lemma replace_from_keeps_no_pair (x a : ascii) (s : str) :
  x <> "|"%char ->
  has_pair x " "%char s = false ->
  has_pair x " "%char (replace_from [a; " "%char] [a; "|"%char] 0 s) = false.
Proof.
  intros Hx Hs.
  destruct (has_pair x " "%char
              (replace_from [a; " "%char] [a; "|"%char] 0 s)) eqn:Hp;
    [|reflexivity].
  apply (pointwise_pair x s) in Hp;
    [congruence | exact Hx | apply replace_from_pointwise].
Qed.

Lemma mark_sentences_no_delimiter (text : str) :
  has_pair "."%char " "%char (mark_sentences text) = false /\
  has_pair "!"%char " "%char (mark_sentences text) = false /\
  has_pair "?"%char " "%char (mark_sentences text) = false.
Proof.
  unfold mark_sentences, replace, py. cbn [list_ascii_of_string].
  repeat split.
  - do 2 (apply replace_from_keeps_no_pair; [discriminate|]).
    apply replace_from_no_pair. discriminate.
  - apply replace_from_keeps_no_pair; [discriminate|].
    apply replace_from_no_pair. discriminate.
  - apply replace_from_no_pair. discriminate.
Qed.

Lemma split_first_head (sep y : ascii) (s h : str) (t : list str) :
  split sep s = (y :: h) :: t -> exists s', s = y :: s'.
Proof.
  destruct s as [|c s']; [discriminate|]. cbn [split].
  destruct (Ascii.eqb c sep); [discriminate|].
  destruct (split sep s'); intros H; injection H as -> _; now exists s'.
Qed.

Lemma split_unit_pair (sep a b : ascii) (s : str) :
  forall unit, In unit (split sep s) ->
               has_pair a b unit = true -> has_pair a b s = true.
Proof.
  induction s as [|c rest IH]; intros unit Hin Hp.
  - destruct Hin as [<- | []]. discriminate.
  - cbn [split] in Hin. destruct (Ascii.eqb c sep).
    + destruct Hin as [<- | Hin]; [discriminate|].
      apply has_pair_tail. now apply (IH unit).
    + destruct (split sep rest) as [|h t] eqn:Es.
      * destruct Hin as [<- | []]. discriminate.
      * destruct Hin as [<- | Hin].
        -- apply has_pair_head in Hp as [[-> [h' ->]] | Hp].
           ++ apply split_first_head in Es as [rest' ->].
              cbn [has_pair]. now rewrite !Ascii.eqb_refl.
           ++ apply has_pair_tail. apply (IH h); [now left | exact Hp].
        -- apply has_pair_tail. apply (IH unit); [now right | exact Hp].
Qed.

Lemma split_unit_no_sep (sep : ascii) (s : str) :
  forall unit, In unit (split sep s) -> ~ In sep unit.
Proof.
  induction s as [|c rest IH]; intros unit Hin.
  - destruct Hin as [<- | []]. intros [].
  - cbn [split] in Hin. destruct (Ascii.eqb c sep) eqn:E.
    + destruct Hin as [<- | Hin]; [intros [] | now apply IH].
    + destruct (split sep rest) as [|h t].
      * destruct Hin as [<- | []]. intros [<- | []].
        now rewrite Ascii.eqb_refl in E.
      * destruct Hin as [<- | Hin].
        -- intros [<- | Hh]; [now rewrite Ascii.eqb_refl in E|].
           apply (IH h); [now left | exact Hh].
        -- apply IH. now right.
Qed.

(** X5. Every sentence delimiter is a split point: no unit holds ['|'] or one
    of [". "], ["! "], ["? "]. *)
Theorem units_hold_no_delimiter (text unit : str) :
  In unit (sentences_of text) ->
  ~ In "|"%char unit /\
  has_pair "."%char " "%char unit = false /\
  has_pair "!"%char " "%char unit = false /\
  has_pair "?"%char " "%char unit = false.
Proof.
  intros Hin. unfold sentences_of in Hin.
  destruct (mark_sentences_no_delimiter text) as (H1 & H2 & H3).
  split; [now apply (split_unit_no_sep _ _ _ Hin)|].
  repeat split.
  - destruct (has_pair "."%char " "%char unit) eqn:Hp; [|reflexivity].
    apply (split_unit_pair _ _ _ _ _ Hin) in Hp. congruence.
  - destruct (has_pair "!"%char " "%char unit) eqn:Hp; [|reflexivity].
    apply (split_unit_pair _ _ _ _ _ Hin) in Hp. congruence.
  - destruct (has_pair "?"%char " "%char unit) eqn:Hp; [|reflexivity].
    apply (split_unit_pair _ _ _ _ _ Hin) in Hp. congruence.
Qed.

Lemma units_hold_no_delimiter_witness :
  ~ In "|"%char (py "Seek!") /\
  has_pair "."%char " "%char (py "Seek!") = false /\
  has_pair "!"%char " "%char (py "Seek!") = false /\
  has_pair "?"%char " "%char (py "Seek!") = false.
Proof.
  apply (units_hold_no_delimiter (py "Ask. Seek! Knock? Enter") (py "Seek!")).
  vm_compute. right. left. reflexivity.
Defined.

(** *** Chunks are greedy groups of units *)

Lemma chunks_of_groups_cons (g : list str) (groups : list (list str)) :
  chunks_of_groups (g :: groups) =
  (if truthy (concat g) then [strip (concat g)] else []) ++
  chunks_of_groups groups.
Proof.
  unfold chunks_of_groups. cbn [filter].
  destruct (truthy (concat g)); reflexivity.
Qed.

Lemma emit_as_app (parts : list str) (current_part : str) :
  (if truthy current_part then parts ++ [strip current_part] else parts) =
  parts ++ (if truthy current_part then [strip current_part] else []).
Proof. destruct (truthy current_part); [reflexivity | now rewrite app_nil_r]. Qed.

Lemma loop_groups (max_length : Z) (l : list str) :
  forall parts current_part group,
    current_part = concat group ->
    group_bounded max_length group ->
    exists g0 rest,
      concat ((group ++ g0) :: rest) = group ++ l /\
      (if truthy (snd (fold_left (loop_step max_length) l
                         (parts, current_part)))
       then fst (fold_left (loop_step max_length) l (parts, current_part)) ++
            [strip (snd (fold_left (loop_step max_length) l
                           (parts, current_part)))]
       else fst (fold_left (loop_step max_length) l (parts, current_part))) =
      parts ++ chunks_of_groups ((group ++ g0) :: rest) /\
      Forall (group_bounded max_length) ((group ++ g0) :: rest) /\
      greedy max_length ((group ++ g0) :: rest).
Proof.
  induction l as [|sentence l IH]; intros parts current_part group Hc Hb.
  - exists [], []. cbn [fold_left fst snd concat]. rewrite !app_nil_r.
    split; [reflexivity|]. split.
    + rewrite emit_as_app, chunks_of_groups_cons, Hc, app_nil_r. reflexivity.
    + split; [now repeat constructor | now split].
  - cbn [fold_left].
    assert (Hstep : loop_step max_length (parts, current_part) sentence =
                    if len (current_part ++ sentence) <=? max_length
                    then (parts, current_part ++ sentence)
                    else ((if truthy current_part
                           then parts ++ [strip current_part] else parts),
                          sentence)) by reflexivity.
    rewrite Hstep. clear Hstep.
    destruct (len (current_part ++ sentence) <=? max_length) eqn:E.
    + apply Z.leb_le in E.
      destruct (IH parts (current_part ++ sentence) (group ++ [sentence]))
        as (g0 & rest & H1 & H2 & H3 & H4).
      * rewrite concat_app. cbn [concat]. now rewrite app_nil_r, Hc.
      * intros _. rewrite concat_app. cbn [concat].
        now rewrite app_nil_r, <- Hc.
      * exists (sentence :: g0), rest.
        rewrite <- !app_assoc in H1, H2, H3, H4.
        cbn [app] in H1, H2, H3, H4.
        split; [etransitivity; [exact H1 | now rewrite <- app_assoc]|].
        split; [exact H2|]. split; [exact H3 | exact H4].
    + apply Z.leb_gt in E.
      destruct (IH (if truthy current_part
                    then parts ++ [strip current_part] else parts)
                  sentence [sentence])
        as (g0 & rest & H1 & H2 & H3 & H4).
      * cbn [concat]. now rewrite app_nil_r.
      * intros Hlen. cbn [length] in Hlen. lia.
      * exists [], (([sentence] ++ g0) :: rest). rewrite app_nil_r.
        split;
          [change (group ++ concat (([sentence] ++ g0) :: rest) =
                   group ++ sentence :: l); f_equal; exact H1|].
        split.
        -- etransitivity; [exact H2|].
           rewrite emit_as_app, <- app_assoc.
           now rewrite (chunks_of_groups_cons group), Hc.
        -- split; [now constructor|].
           cbn [greedy app]. split; [|exact H4]. rewrite <- Hc. lia.
Qed.

(** X6. A text longer than the bound is cut into consecutive groups of its
    units: a group is closed only when the unit that follows would take it
    over the bound, a group of several units is within the bound, and the
    chunks are the groups that are not empty, joined and trimmed, in
    order. *)
Theorem chunks_are_greedy_groups (text : str) (max_length : Z) :
  len text > max_length ->
  exists groups,
    concat groups = sentences_of text /\
    Forall (group_bounded max_length) groups /\
    greedy max_length groups /\
    split_long_text text max_length =
      match chunks_of_groups groups with
      | [] => [text]
      | parts => parts
      end.
Proof.
  intros Hlong.
  destruct (loop_groups max_length (sentences_of text) (@nil str)
              (@nil ascii : str) [] eq_refl)
    as (g0 & rest & H1 & H2 & H3 & H4).
  { intros Hlen. cbn [length] in Hlen. lia. }
  exists (g0 :: rest). cbn [app] in *.
  split; [exact H1|]. split; [exact H3|]. split; [exact H4|].
  unfold split_long_text, split_parts.
  replace (len text <=? max_length) with false
    by (symmetry; apply Z.leb_gt; lia).
  destruct (fold_left (loop_step max_length) (sentences_of text) _)
    as [parts current_part].
  cbn [fst snd] in H2. now rewrite H2.
Qed.

Lemma chunks_are_greedy_groups_witness :
  exists groups,
    concat groups = sentences_of (py "Ask. Seek! Knock? Enter") /\
    Forall (group_bounded 10) groups /\
    greedy 10 groups /\
    split_long_text (py "Ask. Seek! Knock? Enter") 10 =
      match chunks_of_groups groups with
      | [] => [py "Ask. Seek! Knock? Enter"]
      | parts => parts
      end.
Proof.
  apply (chunks_are_greedy_groups (py "Ask. Seek! Knock? Enter") 10).
  vm_compute. reflexivity.
Defined.

End SegmenterMore.

(** ** Highlight span merger *)

Module MergerMore.
Import PyStr Merger PyStrFacts MergerTheorems Observations.

Section Highlights.

Context {ch : Type}.
Variable ieq : ch -> ch -> bool.
Variable line_break : ch -> bool.

Local Abbreviation Match := (Match ch).
Local Abbreviation Run := (Run ch).
Local Abbreviation Element := (Element ch).

(** *** The paragraph lies over the text *)

(** X7. Whenever the call returns, the runs and line breaks it leaves in
    the paragraph lie end to end over the text, from position 0 to
    [len(text)]: they are sorted by start, no position lies in two of them,
    and the positions they cover are exactly those of the text. *)
Theorem elements_lie_over_text (paragraph p : list Element) (text : list ch)
  (highlights : list (list ch)) :
  _apply_highlights ieq line_break paragraph text highlights = Ok p ->
  chain 0 p (len text) /\
  StronglySorted (fun x y => elem_start x <= elem_start y) p /\
  ForallOrdPairs (fun x y => forall pos, ~ (covers x pos /\ covers y pos)) p /\
  (forall pos, 0 <= pos < len text <-> Exists (fun e => covers e pos) p).
Proof.
  intros H. apply apply_highlights_chain in H.
  split; [exact H|]. split; [|split].
  - eapply chain_sorted, H.
  - eapply chain_exclusive, H.
  - apply (chain_covers _ _ _ H).
Qed.

(** X8. What the paragraph held before the call has no effect on the result. *)
Theorem earlier_runs_discarded (paragraph1 paragraph2 : list Element)
  (text : list ch) (highlights : list (list ch)) :
  _apply_highlights ieq line_break paragraph1 text highlights =
  _apply_highlights ieq line_break paragraph2 text highlights.
Proof.
  rewrite (apply_highlights_runs ieq line_break paragraph1).
  rewrite (apply_highlights_runs ieq line_break paragraph2).
  reflexivity.
Qed.

(** *** What is highlighted *)

Lemma kept_matches_sound (text : list ch) (highlights : list (list ch)) :
  Forall (fun m => exists h, In h highlights /\ occurrence ieq h text m)
    (accepted_from (-1) (sort_by_start (find_matches ieq text highlights))).
Proof.
  apply accepted_Forall.
  eapply Permutation_Forall; [apply sort_by_start_perm|].
  apply find_matches_sound.
Qed.

Lemma Forall_slice (P : ch -> Prop) (text : list ch) (a b : Z) :
  Forall P text -> Forall P (slice text a b).
Proof.
  intros Hall. unfold slice. rewrite Forall_forall in *.
  intros c Hin. apply Hall.
  rewrite <- (firstn_skipn (Z.to_nat a) text). apply in_or_app. right.
  rewrite <- (firstn_skipn (Z.to_nat (b - a)) (skipn (Z.to_nat a) text)).
  apply in_or_app. now left.
Qed.

(** On a text without line breaks the first write leaves one run. *)
Lemma first_write_plain (f : Format) (start : Z) (t : list ch)
  (p : list Element) :
  Forall (fun c => line_break c = false) t ->
  format_first_run f (set_text line_break start t) = Ok p ->
  p = [RunElement (mkRun start (start + len t) t f)].
Proof.
  intros Hall. unfold set_text. rewrite text_elements_plain by exact Hall.
  cbn [app]. destruct t as [|c t]; cbn [piece_run format_first_run];
    [discriminate|].
  intros H. injection H as <-. reflexivity.
Qed.

Lemma first_round_plain (text : list ch) (m : Match) (p : list Element) :
  Forall (fun c => line_break c = false) text ->
  in_text text m ->
  first_round line_break text m = Ok p ->
  p = map (@RunElement ch)
        ((if m_start m >? 0
          then [mkRun 0 (m_start m) (slice text 0 (m_start m)) Plain]
          else [])
         ++ [mkRun (m_start m) (m_end m) (m_group m) Highlight]).
Proof.
  intros Hall (H0 & Hse & Hen & Hg) H. unfold first_round in H.
  destruct (m_start m >? 0) eqn:E.
  - destruct (format_first_run Plain _) as [q|e] eqn:Eq; cbn [bind] in H;
      [|discriminate].
    injection H as <-.
    apply first_write_plain in Eq; [|now apply Forall_slice].
    rewrite Eq, len_slice by lia. cbn [map app].
    now replace (0 + (m_start m - 0)) with (m_start m) by lia.
  - apply first_write_plain in H; [|rewrite Hg; now apply Forall_slice].
    rewrite H. cbn [map app]. rewrite Hg at 1.
    rewrite len_slice by lia.
    now replace (m_start m + (m_end m - m_start m)) with (m_end m) by lia.
Qed.

Lemma runs_of_runs (rs : list Run) : runs (map (@RunElement ch) rs) = rs.
Proof.
  induction rs as [|r rs IH]; [reflexivity|]. cbn [map runs]. now f_equal.
Qed.

Lemma runs_app (x y : list Element) : runs (x ++ y) = runs x ++ runs y.
Proof.
  induction x as [|[r|b] x IH]; cbn [app runs];
    [reflexivity | now f_equal | apply IH].
Qed.

(** On a text without line breaks a call that returns leaves the runs of
    the matches kept and of the text between them. *)
Lemma plain_text_runs (paragraph p : list Element) (text : list ch)
  (highlights : list (list ch)) (m : Match) (l : list Match) :
  Forall (fun c => line_break c = false) text ->
  accepted_from (-1) (sort_by_start (find_matches ieq text highlights)) =
    m :: l ->
  _apply_highlights ieq line_break paragraph text highlights = Ok p ->
  runs p = runs_from text 0 (m :: l)
           ++ trailing_run text (last_pos 0 (m :: l)).
Proof.
  intros Hall Hacc. rewrite apply_highlights_runs, Hacc.
  destruct (kept_matches_separated ieq text highlights) as [_ Hin].
  rewrite Hacc in Hin. inversion Hin as [|? ? Hm _]; subst.
  destruct (first_round line_break text m) as [q|e] eqn:Eq; cbn [bind];
    [|discriminate].
  intros H. injection H as <-.
  apply first_round_plain in Eq; [|assumption..].
  rewrite Eq, <- map_app, runs_of_runs.
  cbn [runs_from last_pos]. now rewrite <- !app_assoc.
Qed.

Lemma runs_from_highlighted (text : list ch) (l : list Match) :
  forall lo r,
    In r (runs_from text lo l) ->
    run_format r = Highlight ->
    exists m, In m l /\ r = mkRun (m_start m) (m_end m) (m_group m) Highlight.
Proof.
  induction l as [|m l IH]; intros lo r Hin Hf; [destruct Hin|].
  cbn [runs_from] in Hin. apply in_app_or in Hin as [Hin | [Hin | Hin]].
  - destruct (m_start m >? lo); [|destruct Hin].
    destruct Hin as [<- | []]. discriminate.
  - exists m. split; [now left | now symmetry].
  - destruct (IH _ _ Hin Hf) as [a [Ha Hr]].
    exists a. split; [now right | exact Hr].
Qed.

Lemma runs_from_kept (text : list ch) (l : list Match) (m : Match) :
  forall lo,
    In m l ->
    In (mkRun (m_start m) (m_end m) (m_group m) Highlight)
      (runs_from text lo l).
Proof.
  induction l as [|a l IH]; intros lo Hin; [destruct Hin|].
  cbn [runs_from]. apply in_or_app. right.
  destruct Hin as [-> | Hin]; [now left | right; now apply IH].
Qed.

(** X9. On a text without line breaks, whenever the call returns, a run in
    the highlight format holds a range of the text that equals a highlight
    term up to case. *)
Theorem highlighted_range_is_a_term (paragraph p : list Element)
  (text : list ch) (highlights : list (list ch)) :
  Forall (fun c => line_break c = false) text ->
  _apply_highlights ieq line_break paragraph text highlights = Ok p ->
  Forall (fun r => run_format r = Highlight ->
                   exists h, In h highlights /\
                             Forall2 (fun a c => ieq a c = true) h
                               (slice text (run_start r) (run_end r)))
    (runs p).
Proof.
  intros Hall H. rewrite Forall_forall. intros r Hin Hf.
  destruct (accepted_from (-1)
              (sort_by_start (find_matches ieq text highlights)))
    as [|m l] eqn:Hacc.
  - rewrite apply_highlights_runs, Hacc in H. injection H as <-.
    pose proof (text_elements_inherited line_break text 0 0 []) as Hinh.
    rewrite Forall_forall in Hinh. specialize (Hinh _ Hin).
    rewrite Hinh in Hf. discriminate.
  - rewrite (plain_text_runs _ _ _ _ _ _ Hall Hacc H) in Hin.
    apply in_app_or in Hin as [Hin | Hin].
    + destruct (runs_from_highlighted _ _ _ _ Hin Hf) as [a [Ha ->]].
      pose proof (kept_matches_sound text highlights) as Hsound.
      rewrite Hacc, Forall_forall in Hsound.
      destruct (Hsound a Ha) as [h [Hh (_ & _ & _ & Hg & Hieq)]].
      exists h. split; [exact Hh|]. cbn [run_start run_end].
      now rewrite <- Hg.
    + unfold trailing_run in Hin.
      destruct (last_pos 0 (m :: l) <? len text); [|destruct Hin].
      destruct Hin as [<- | []]. discriminate.
Qed.

(** Every candidate is kept or starts inside a kept match that starts no
    later. *)
Lemma accepted_cover (l : list Match) :
  StronglySorted (fun x y => m_start x <= m_start y) l ->
  forall last_end m,
    In m l ->
    m_start m < last_end \/
    exists a, In a (accepted_from last_end l) /\
              m_start a <= m_start m /\
              (a = m \/ m_start m < m_end a).
Proof.
  induction 1 as [|x l Hs IH Hx]; intros last_end m Hin; [destruct Hin|].
  cbn [accepted_from].
  destruct (m_start x >=? last_end) eqn:E.
  - right. destruct Hin as [<- | Hin].
    + exists x. split; [now left | split; [lia | now left]].
    + rewrite Forall_forall in Hx. specialize (Hx m Hin).
      destruct (IH (m_end x) m Hin) as [Hlt | [a (Ha & Hle & Hcov)]].
      * exists x. split; [now left | split; [exact Hx | now right]].
      * exists a. split; [now right | now split].
  - rewrite Z.geb_leb in E. apply Z.leb_gt in E.
    destruct Hin as [<- | Hin]; [now left|].
    apply IH. exact Hin.
Qed.

(** X10. On a text without line breaks, whenever the call returns, the
    first character of every match of a term that is not empty lies in a
    run in the highlight format, whether the match itself is kept or
    dropped. *)
Theorem match_start_highlighted (paragraph p : list Element)
  (text : list ch) (highlights : list (list ch)) (m : Match) :
  Forall (fun c => line_break c = false) text ->
  _apply_highlights ieq line_break paragraph text highlights = Ok p ->
  In m (find_matches ieq text highlights) ->
  m_start m < m_end m ->
  Exists (fun r => run_format r = Highlight /\
                   covers (RunElement r) (m_start m))
    (runs p).
Proof.
  intros Hplain H Hin Hwide.
  pose proof (find_matches_in_text ieq text highlights) as Hall.
  rewrite Forall_forall in Hall. destruct (Hall m Hin) as (H0 & _).
  assert (Hs : In m (sort_by_start (find_matches ieq text highlights)))
    by (eapply Permutation_in; [apply sort_by_start_perm | exact Hin]).
  destruct (accepted_cover _ (sort_by_start_sorted _) (-1) m Hs)
    as [Hlt | [a (Ha & Hle & Hcov)]]; [lia|].
  destruct (accepted_from (-1)
              (sort_by_start (find_matches ieq text highlights)))
    as [|m0 l] eqn:Hacc; [destruct Ha|].
  apply Exists_exists.
  exists (mkRun (m_start a) (m_end a) (m_group a) Highlight).
  split.
  - rewrite (plain_text_runs _ _ _ _ _ _ Hplain Hacc H).
    apply in_or_app. left. now apply runs_from_kept.
  - split; [reflexivity|].
    unfold covers. cbn [elem_start elem_end run_start run_end].
    destruct Hcov as [-> | Hcov]; lia.
Qed.

(** X11. When no term matches anywhere, the call returns and the whole text
    is assigned to the paragraph at once, no run in the highlight format;
    and whenever the call returns, some run is in the highlight format
    exactly when some term matches somewhere. *)
Theorem highlight_iff_match (paragraph : list Element) (text : list ch)
  (highlights : list (list ch)) :
  (find_matches ieq text highlights = [] ->
   _apply_highlights ieq line_break paragraph text highlights =
   Ok (set_text line_break 0 text)) /\
  (forall p,
      _apply_highlights ieq line_break paragraph text highlights = Ok p ->
      (Exists (fun r => run_format r = Highlight) (runs p) <->
       find_matches ieq text highlights <> [])).
Proof.
  split.
  - intros Hnone. rewrite apply_highlights_runs, Hnone. reflexivity.
  - intros p H. rewrite apply_highlights_runs in H. split.
    + intros Hex Hnil. rewrite Hnil in H. cbn in H. injection H as <-.
      pose proof (text_elements_inherited line_break text 0 0 []) as Hinh.
      rewrite Forall_forall in Hinh. apply Exists_exists in Hex.
      destruct Hex as [r [Hin Hf]].
      rewrite (Hinh _ Hin) in Hf. discriminate.
    + intros Hne.
      destruct (find_matches ieq text highlights) as [|m0 l0] eqn:Em;
        [contradiction|].
      assert (Hin : In m0 (m0 :: l0)) by now left.
      assert (Hs : In m0 (sort_by_start (m0 :: l0)))
        by (eapply Permutation_in; [apply sort_by_start_perm | exact Hin]).
      pose proof (find_matches_in_text ieq text highlights) as Hall.
      rewrite Em, Forall_forall in Hall. destruct (Hall m0 Hin) as (H0 & _).
      destruct (accepted_cover _ (sort_by_start_sorted _) (-1) m0 Hs)
        as [Hlt | [a (Ha & _)]]; [lia|].
      destruct (accepted_from (-1) (sort_by_start (m0 :: l0)))
        as [|m l]; [destruct Ha|].
      destruct (first_round line_break text m) as [q|e] eqn:Eq;
        cbn [bind] in H; [|discriminate].
      injection H as <-.
      rewrite runs_app. apply Exists_app. left.
      unfold first_round in Eq. destruct (m_start m >? 0).
      * destruct (format_first_run Plain _) as [q0|e]; cbn [bind] in Eq;
          [|discriminate].
        injection Eq as <-.
        rewrite runs_app. apply Exists_app. right. now left.
      * now apply format_first_run_formats in Eq.
Qed.

(** *** Terms that do not occur *)

Lemma match_here_of_firstn (pattern r : list ch) :
  Forall2 (fun p c => ieq p c = true) pattern (firstn (length pattern) r) ->
  match_here ieq pattern r = true.
Proof.
  revert r. induction pattern as [|a pattern IH]; intros r H; [reflexivity|].
  destruct r as [|c r]; cbn [length firstn] in H; inversion H; subst.
  cbn [match_here]. apply andb_true_iff. split; [assumption | now apply IH].
Qed.

Lemma occurrence_position (h text : list ch) (m : Match) :
  occurrence ieq h text m ->
  (Z.to_nat (m_start m) <= length text)%nat /\
  match_here ieq h (skipn (Z.to_nat (m_start m)) text) = true.
Proof.
  intros (H0 & He & Hn & Hg & Hall).
  pose proof (len_nonneg h) as Hh. unfold len in *.
  split; [lia|]. apply match_here_of_firstn.
  rewrite Hg in Hall. unfold slice in Hall.
  replace (Z.to_nat (m_end m - m_start m)) with (length h) in Hall by lia.
  exact Hall.
Qed.

(** X12. A term that matches at no position of the text is ignored: the output
    is that of the other terms. *)
Theorem unmatched_term_ignored (paragraph : list Element) (text : list ch)
  (hs1 : list (list ch)) (h : list ch) (hs2 : list (list ch)) :
  (forall p, (p <= length text)%nat ->
             match_here ieq h (skipn p text) = false) ->
  term_ignored ieq line_break paragraph text hs1 h hs2.
Proof.
  intros Hno.
  assert (Hnone : finditer ieq h text = []).
  { pose proof (finditer_sound ieq h text) as Hall.
    destruct (finditer ieq h text) as [|m l]; [reflexivity|].
    inversion Hall as [|? ? Hm _]; subst.
    apply occurrence_position in Hm as [Hp Hm].
    rewrite (Hno _ Hp) in Hm. discriminate. }
  split; [exact Hnone|].
  unfold _apply_highlights, find_matches.
  rewrite !flat_map_app. cbn [flat_map]. rewrite Hnone. reflexivity.
Qed.

End Highlights.

Lemma elements_lie_over_text_witness :
  chain 0
    [RunElement (mkRun 0 1 (py "a") Plain); BreakElement 1;
     RunElement (mkRun 2 3 (py "b") Highlight)] 3.
Proof.
  apply (elements_lie_over_text ascii_ieq ascii_line_break []
           [RunElement (mkRun 0 1 (py "a") Plain); BreakElement 1;
            RunElement (mkRun 2 3 (py "b") Highlight)]
           ["a"; "010"; "b"]%char [py "b"]).
  vm_compute. reflexivity.
Defined.

Lemma highlighted_range_is_a_term_witness :
  Forall (fun r => run_format r = Highlight ->
                   exists h, In h [py "lord"] /\
                             Forall2 (fun a c => ascii_ieq a c = true) h
                               (slice (py "The Lord") (run_start r)
                                  (run_end r)))
    (runs [RunElement (mkRun 0 4 (py "The ") Plain);
           RunElement (mkRun 4 8 (py "Lord") Highlight)]).
Proof.
  apply (highlighted_range_is_a_term ascii_ieq ascii_line_break []
           [RunElement (mkRun 0 4 (py "The ") Plain);
            RunElement (mkRun 4 8 (py "Lord") Highlight)]
           (py "The Lord") [py "lord"]).
  - repeat constructor.
  - vm_compute. reflexivity.
Defined.

Lemma unmatched_term_ignored_witness :
  term_ignored ascii_ieq ascii_line_break [] (py "Amen") [py "men"] (py "x")
    [].
Proof.
  apply (unmatched_term_ignored ascii_ieq ascii_line_break [] (py "Amen")
           [py "men"] (py "x") []).
  intros p Hp.
  do 5 (destruct p as [|p]; [reflexivity|]).
  cbn [length py list_ascii_of_string] in Hp. lia.
Defined.

Lemma match_start_highlighted_witness :
  Exists (fun r => run_format r = Highlight /\ covers (RunElement r) 1)
    (runs [RunElement (mkRun 0 3 (py "abc") Highlight);
           RunElement (mkRun 3 6 (py "def") Plain)]).
Proof.
  apply (match_start_highlighted ascii_ieq ascii_line_break []
           [RunElement (mkRun 0 3 (py "abc") Highlight);
            RunElement (mkRun 3 6 (py "def") Plain)]
           (py "abcdef") [py "abc"; py "bcd"] (1, 4, py "bcd")).
  - repeat constructor.
  - vm_compute. reflexivity.
  - vm_compute. right. left. reflexivity.
  - vm_compute. reflexivity.
Defined.

End MergerMore.

(** ** Document builder *)

Module BuilderMore.
Import PyStr Builder Observations BuilderTheorems.

(** *** Loops that append *)

(** A loop whose body appends to the presentation appends, for each
    element in turn, what the body appends for it. *)
Lemma for_each_collect {A S : Type} (Q : A -> list S -> Prop)
  (body : list S -> A -> result (list S)) :
  (forall prs a prs', body prs a = Ok prs' ->
                      exists new, prs' = prs ++ new /\ Q a new) ->
  forall l prs prs',
    for_each body l prs = Ok prs' ->
    exists news, prs' = prs ++ concat news /\ Forall2 Q l news.
Proof.
  intros Hbody l. induction l as [|a l IH]; intros prs prs' H.
  - injection H as <-. exists []. cbn [concat]. rewrite app_nil_r.
    split; [reflexivity | constructor].
  - cbn [for_each] in H. unfold bind in H.
    destruct (body prs a) as [prs1|e] eqn:E; [|discriminate].
    destruct (Hbody _ _ _ E) as [new [-> HQ]].
    destruct (IH _ _ H) as [news [-> Hall]].
    exists (new :: news). cbn [concat]. rewrite app_assoc.
    split; [reflexivity | now constructor].
Qed.

(** A loop raises only what its body raises on one of the elements. *)
Lemma for_each_raises {A S : Type} (P : exn -> Prop)
  (body : S -> A -> result S) (l : list A) :
  (forall s a e, In a l -> body s a = Raise e -> P e) ->
  forall s e, for_each body l s = Raise e -> P e.
Proof.
  induction l as [|a l IH]; intros Hbody s e H; [discriminate|].
  cbn [for_each] in H. unfold bind in H.
  destruct (body s a) as [s1|e1] eqn:E.
  - apply (IH (fun s' a' e' Hin => Hbody s' a' e' (or_intror Hin)) s1 e H).
  - injection H as <-. apply (Hbody s a e1 (or_introl eq_refl) E).
Qed.

(** A loop whose body succeeds on every element succeeds. *)
Lemma for_each_succeeds {A S : Type} (body : S -> A -> result S)
  (l : list A) :
  Forall (fun a => forall s, exists s', body s a = Ok s') l ->
  forall s, exists s', for_each body l s = Ok s'.
Proof.
  induction 1 as [|a l Ha _ IH]; intros s; [now exists s|].
  cbn [for_each]. unfold bind. destruct (Ha s) as [s1 ->]. apply IH.
Qed.

(** *** The slides of one verse *)

(** A verse slide that is added carries the reference and the part number
    it was given. *)
Lemma add_verse_slide_outcome (prs : list Slide) (part reference : str)
  (part_num : option Z) (highlights : option (list str))
  (prs' : list Slide) :
  add_verse_slide prs part reference part_num highlights = Ok prs' ->
  exists p, prs' = prs ++ [VerseSlide p reference part_num].
Proof.
  unfold add_verse_slide.
  destruct (match highlights with
            | Some (h :: hs) => _
            | _ => _
            end) as [p|e]; cbn [bind]; [|discriminate].
  intros H. injection H as <-. now exists p.
Qed.

(** Without highlight terms the text is assigned to the paragraph at once
    and nothing is raised. *)
Lemma add_verse_slide_plain (prs : list Slide) (part reference : str)
  (part_num : option Z) (highlights : option (list str)) :
  highlights = None \/ highlights = Some [] ->
  add_verse_slide prs part reference part_num highlights =
  Ok (prs ++ [VerseSlide (Merger.set_text Merger.ascii_line_break 0 part)
                reference part_num]).
Proof. intros [-> | ->]; reflexivity. Qed.

(** Adding a verse slide raises nothing but the [IndexError] of the
    merger, and only when highlight terms are given. *)
Lemma add_verse_slide_raises (prs : list Slide) (part reference : str)
  (part_num : option Z) (highlights : option (list str)) (e : exn) :
  add_verse_slide prs part reference part_num highlights = Raise e ->
  e = IndexError /\ exists h hs, highlights = Some (h :: hs).
Proof.
  unfold add_verse_slide. destruct highlights as [[|h hs]|]; cbn [bind];
    [discriminate| |discriminate].
  destruct (Merger._apply_highlights _ _ _ _ _) as [p|e'] eqn:E; cbn [bind];
    [discriminate|].
  intros H. injection H as <-.
  apply MergerTheorems.apply_highlights_raises in E.
  split; [exact E | now exists h, hs].
Qed.

Section Create.

Variable split_long_text : str -> list str.

Lemma verse_parts_loop (verse : Verse) (n : Z)
  (highlights : option (list str)) (parts : list str) :
  forall k prs prs',
    for_each
      (fun prs (ip : nat * str) =>
         let '(i, part) := ip in
         let part_num := if n >? 1 then Some (Z.of_nat i + 1) else None in
         reference <- item "reference" (verse_reference verse) ;;
         add_verse_slide prs part reference part_num highlights)
      (combine (seq k (length parts)) parts) prs = Ok prs' ->
    exists new,
      prs' = prs ++ new /\
      Forall is_verse_slide new /\
      verse_labels new =
        map (fun i => (get (verse_reference verse) [],
                       if n >? 1 then Some (Z.of_nat i + 1) else None))
          (seq k (length parts)) /\
      Forall (fun label => verse_reference verse = Some (fst label))
        (verse_labels new).
Proof.
  induction parts as [|part parts IH]; intros k prs prs' H.
  - injection H as <-. exists []. rewrite app_nil_r.
    repeat split; constructor.
  - cbn [length seq combine for_each] in H. unfold bind at 1 in H.
    destruct (verse_reference verse) as [reference|] eqn:Er;
      cbn [item bind] in H; [|discriminate].
    destruct (add_verse_slide prs part reference
                (if n >? 1 then Some (Z.of_nat k + 1) else None) highlights)
      as [prs1|e] eqn:Eadd; [|discriminate].
    apply add_verse_slide_outcome in Eadd as [p ->].
    destruct (IH _ _ _ H) as [new (-> & Hv & Hl & Hr)].
    exists (VerseSlide p reference
              (if n >? 1 then Some (Z.of_nat k + 1) else None) :: new).
    rewrite <- app_assoc. split; [reflexivity|].
    unfold verse_labels in *. cbn [flat_map app map length seq get fst].
    repeat split.
    + constructor; [exact I | exact Hv].
    + now rewrite Hl.
    + constructor; [reflexivity | exact Hr].
Qed.

Lemma verse_step_outcome (prs : list Slide) (verse : Verse)
  (prs' : list Slide) :
  verse_step split_long_text prs verse = Ok prs' ->
  verse_text verse <> None /\
  exists new, prs' = prs ++ new /\ verse_outcome split_long_text verse new.
Proof.
  unfold verse_step, bind at 1.
  destruct (verse_text verse) as [text|] eqn:Et; cbn [item]; [|discriminate].
  intros H. split; [discriminate|].
  unfold enumerate in H.
  destruct (verse_parts_loop verse (len (split_long_text text))
              (verse_highlights verse) (split_long_text text) 0%nat _ _ H)
    as [new (-> & Hv & Hl & Hr)].
  exists new. split; [reflexivity|].
  unfold verse_outcome, labels_of_verse, part_numbers.
  rewrite Et. cbn [get]. rewrite map_map.
  split; [exact Hv | split; [exact Hl | exact Hr]].
Qed.

(** X13. When the step of a verse returns, the slides it added are verse
    slides, one for each part of the text of the verse and in order, each
    under the reference of the verse, numbered from 1 when there are several
    parts and unnumbered when there is one. *)
Theorem verse_slides_numbered (prs : list Slide) (verse : Verse)
  (prs' : list Slide) :
  verse_step split_long_text prs verse = Ok prs' ->
  verse_text verse <> None /\
  exists new, prs' = prs ++ new /\ verse_outcome split_long_text verse new.
Proof.
  unfold verse_step, bind at 1.
  destruct (verse_text verse) as [text|] eqn:Et; cbn [item]; [|discriminate].
  intros H. split; [discriminate|].
  unfold enumerate in H.
  destruct (verse_parts_loop verse (len (split_long_text text))
              (verse_highlights verse) (split_long_text text) 0%nat _ _ H)
    as [new (-> & Hv & Hl & Hr)].
  exists new. split; [reflexivity|].
  unfold verse_outcome, labels_of_verse, part_numbers.
  rewrite Et. cbn [get]. rewrite map_map.
  split; [exact Hv | split; [exact Hl | exact Hr]].
Qed.

(** *** The slides of one section and of the presentation *)

Lemma verse_slides_no_section (new : list Slide) :
  Forall is_verse_slide new ->
  section_names new = [] /\ Forall not_title new.
Proof.
  induction 1 as [|s new Hs _ [IH1 IH2]]; [split; [reflexivity | constructor]|].
  destruct s; try destruct Hs.
  split; [exact IH1 | constructor; [exact I | exact IH2]].
Qed.

Lemma collected_verses (verses : list Verse) (news : list (list Slide)) :
  Forall2 (verse_outcome split_long_text) verses news ->
  Forall is_verse_slide (concat news) /\
  verse_labels (concat news) =
  flat_map (labels_of_verse split_long_text) verses.
Proof.
  induction 1 as [|verse new verses news (Hv & Hl & _) _ [IH1 IH2]];
    [split; [constructor | reflexivity]|].
  cbn [concat flat_map]. split; [apply Forall_app; now split|].
  unfold verse_labels in *. now rewrite flat_map_app, Hl, IH2.
Qed.

Lemma section_step_outcome (custom_title : option str) (prs : list Slide)
  (section_data : SectionData) (prs' : list Slide) :
  section_step split_long_text custom_title prs section_data = Ok prs' ->
  exists new, prs' = prs ++ new /\
              section_outcome split_long_text custom_title section_data new.
Proof.
  unfold section_step, section_outcome, labels_of_section, has_verses.
  destruct (opt_truthy (section_verses section_data)) eqn:Ev.
  - destruct (section_verses section_data) as [verses|]; [|discriminate].
    cbn [get andb].
    assert (Hloop : forall prs1,
      for_each (verse_step split_long_text) verses prs1 = Ok prs' ->
      exists new, prs' = prs1 ++ new /\ Forall is_verse_slide new /\
                  verse_labels new =
                  flat_map (labels_of_verse split_long_text) verses).
    { intros prs1 H.
      destruct (for_each_collect (verse_outcome split_long_text)
                  (verse_step split_long_text)
                  (fun p v p' Hp =>
                     proj2 (verse_step_outcome p v p' Hp))
                  _ _ _ H) as [news [-> Hall]].
      destruct (collected_verses _ _ Hall) as [Hv Ht].
      now exists (concat news). }
    destruct (opt_truthy custom_title); cbn [negb bind item].
    + intros H. destruct (Hloop _ H) as [new (-> & Hv & Ht)].
      destruct (verse_slides_no_section _ Hv) as [Hs Hn].
      exists new. rewrite Hs. now repeat split.
    + destruct (section_name section_data) as [name|]; cbn [item bind];
        [|discriminate].
      intros H. destruct (Hloop _ H) as [new (-> & Hv & Ht)].
      destruct (verse_slides_no_section _ Hv) as [Hs Hn].
      unfold add_section_slide. rewrite <- app_assoc.
      exists ([SectionSlide name] ++ new). split; [reflexivity|].
      unfold section_names, verse_labels in *.
      cbn [app flat_map map]. rewrite Hs. cbn [app map].
      repeat split; [exact Ht|]. constructor; [exact I | exact Hn].
  - intros H. injection H as <-. exists []. rewrite app_nil_r.
    cbn [andb]. repeat split; [|constructor].
    destruct (section_verses section_data) as [[|v vs]|];
      [reflexivity | discriminate | reflexivity].
Qed.

Lemma collected_sections (custom_title : option str)
  (l : list SectionData) (news : list (list Slide)) :
  Forall2 (section_outcome split_long_text custom_title) l news ->
  map Some (section_names (concat news)) =
    (if opt_truthy custom_title then []
     else map section_name (filter has_verses l)) /\
  verse_labels (concat news) = all_labels split_long_text l /\
  Forall not_title (concat news).
Proof.
  induction 1 as [|section_data new l news (Hs & Ht & Hn) _ (IH1 & IH2 & IH3)].
  - destruct (opt_truthy custom_title); repeat split; constructor.
  - cbn [concat filter]. unfold section_names, verse_labels, all_labels in *.
    rewrite !flat_map_app, map_app, Hs, Ht, IH1, IH2. cbn [flat_map].
    repeat split; [|apply Forall_app; now split].
    destruct (opt_truthy custom_title), (has_verses section_data);
      reflexivity.
Qed.

Lemma build_slides_outcome (d : Data) (custom_title : option str)
  (prs : list Slide) :
  build_slides split_long_text d custom_title = Ok prs ->
  exists rest,
    prs =
      TitleSlide
        (if opt_truthy custom_title then get custom_title []
         else get (presentation_title d) (py "Bible Verses Collection"))
        (if opt_truthy custom_title then []
         else get (presentation_subtitle d) (py "Selected Scriptures"))
      :: rest /\
    Forall not_title rest /\
    map Some (section_names prs) =
      (if opt_truthy custom_title then []
       else map section_name (filter has_verses (get (sections d) []))) /\
    verse_labels prs = all_labels split_long_text (get (sections d) []).
Proof.
  unfold build_slides, add_title_slide. cbn [app].
  intros H.
  assert (H' : for_each (section_step split_long_text custom_title)
                 (get (sections d) [])
                 [TitleSlide
                    (if opt_truthy custom_title then get custom_title []
                     else get (presentation_title d)
                            (py "Bible Verses Collection"))
                    (if opt_truthy custom_title then []
                     else get (presentation_subtitle d)
                            (py "Selected Scriptures"))] = Ok prs)
    by (destruct (opt_truthy custom_title); exact H).
  clear H.
  destruct (for_each_collect
              (section_outcome split_long_text custom_title)
              (section_step split_long_text custom_title)
              (section_step_outcome custom_title) _ _ _ H')
    as [news [-> Hall]].
  destruct (collected_sections _ _ _ Hall) as (Hs & Ht & Hn).
  exists (concat news). cbn [app]. repeat split; assumption.
Qed.

(** X15. A presentation that was built starts with its one title slide, which
    carries the custom title and no subtitle when a custom title is given.
    Its section slides are, in order, the names of the sections that have
    verses, or none when a custom title is given.  Its verse slides are, in
    order, one for each part of each verse of all sections, each under the
    reference of its verse and numbered within its verse. *)
Theorem presentation_structure (d : Data) (custom_title : option str)
  (prs : list Slide) :
  build_slides split_long_text d custom_title = Ok prs ->
  exists rest,
    prs =
      TitleSlide
        (if opt_truthy custom_title then get custom_title []
         else get (presentation_title d) (py "Bible Verses Collection"))
        (if opt_truthy custom_title then []
         else get (presentation_subtitle d) (py "Selected Scriptures"))
      :: rest /\
    Forall not_title rest /\
    map Some (section_names prs) =
      (if opt_truthy custom_title then []
       else map section_name (filter has_verses (get (sections d) []))) /\
    verse_labels prs = all_labels split_long_text (get (sections d) []).
Proof.
  unfold build_slides, add_title_slide. cbn [app].
  intros H.
  assert (H' : for_each (section_step split_long_text custom_title)
                 (get (sections d) [])
                 [TitleSlide
                    (if opt_truthy custom_title then get custom_title []
                     else get (presentation_title d)
                            (py "Bible Verses Collection"))
                    (if opt_truthy custom_title then []
                     else get (presentation_subtitle d)
                            (py "Selected Scriptures"))] = Ok prs)
    by (destruct (opt_truthy custom_title); exact H).
  clear H.
  destruct (for_each_collect
              (section_outcome split_long_text custom_title)
              (section_step split_long_text custom_title)
              (section_step_outcome custom_title) _ _ _ H')
    as [news [-> Hall]].
  destruct (collected_sections _ _ _ Hall) as (Hs & Ht & Hn).
  exists (concat news). cbn [app]. repeat split; assumption.
Qed.

(** *** Missing keys *)

(** What the step of a verse raises: the [KeyError] of the text or of the
    reference, or the [IndexError] of the merger when the verse has
    highlight terms. *)
Lemma verse_step_raises (prs : list Slide) (verse : Verse) (e : exn) :
  verse_step split_long_text prs verse = Raise e ->
  (e = KeyError (py "text") /\ verse_text verse = None) \/
  (e = KeyError (py "reference") /\ verse_text verse <> None /\
   verse_reference verse = None) \/
  (e = IndexError /\ ~ no_highlights verse).
Proof.
  unfold verse_step, bind at 1.
  destruct (verse_text verse) as [text|]; cbn [item].
  - intros H. right. revert H.
    apply (for_each_raises
             (fun e => (e = KeyError (py "reference") /\
                        Some text <> None /\ verse_reference verse = None) \/
                       (e = IndexError /\ ~ no_highlights verse))).
    intros p [i part] e' _.
    destruct (verse_reference verse); cbn [item bind].
    + intros H. apply add_verse_slide_raises in H as [-> [h [hs Hh]]].
      right. split; [reflexivity|].
      unfold no_highlights. rewrite Hh. intros [H | H]; discriminate.
    + intros H. injection H as <-. left.
      split; [reflexivity|]. split; [discriminate | reflexivity].
  - intros H. injection H as <-. now left.
Qed.

(** X16. The builder raises [KeyError('section')] for a section exactly when
    the section has verses, no custom title is given and the section has no
    name.  The step of a verse raises [KeyError('text')] exactly when the
    verse has no text, and [KeyError('reference')] exactly when it has a
    text that gives at least one part and no reference. *)
Theorem builder_key_errors (custom_title : option str) :
  (forall prs section_data,
      section_step split_long_text custom_title prs section_data =
      Raise (KeyError (py "section")) <->
      has_verses section_data = true /\
      opt_truthy custom_title = false /\
      section_name section_data = None) /\
  (forall prs verse,
      verse_step split_long_text prs verse = Raise (KeyError (py "text")) <->
      verse_text verse = None) /\
  (forall prs verse,
      verse_step split_long_text prs verse =
      Raise (KeyError (py "reference")) <->
      (exists text, verse_text verse = Some text /\
                    split_long_text text <> []) /\
      verse_reference verse = None).
Proof.
  split; [|split].
  - intros prs section_data. unfold section_step, has_verses. split.
    + destruct (opt_truthy (section_verses section_data)) eqn:Ev;
        [|discriminate].
      destruct (section_verses section_data) as [verses|]; [|discriminate].
      assert (Hloop : forall prs1,
                for_each (verse_step split_long_text) verses prs1 <>
                Raise (KeyError (py "section"))).
      { assert (Hbody : forall s a e,
                  In a verses ->
                  verse_step split_long_text s a = Raise e ->
                  e <> KeyError (py "section")).
        { intros s a e _ H.
          apply verse_step_raises in H as [[-> _] | [[-> _] | [-> _]]];
            discriminate. }
        intros prs1 H.
        exact (for_each_raises _ _ _ Hbody _ _ H eq_refl). }
      destruct (opt_truthy custom_title); cbn [negb bind item].
      * intros H. now apply Hloop in H.
      * destruct (section_name section_data) as [name|]; cbn [item bind].
        -- intros H. now apply Hloop in H.
        -- intros _. now repeat split.
    + intros (Hv & Hc & Hn). rewrite Hv, Hc, Hn. reflexivity.
  - intros prs verse. split.
    + intros H.
      apply verse_step_raises in H as [[_ H] | [[H _] | [H _]]];
        [exact H | discriminate H | discriminate H].
    + intros H. unfold verse_step. rewrite H. reflexivity.
  - intros prs verse. split.
    + intros H. pose proof H as H'.
      apply verse_step_raises in H' as [[H' _] | [[_ [Ht Hr]] | [H' _]]];
        [discriminate H' | | discriminate H'].
      split; [|exact Hr].
      destruct (verse_text verse) as [text|] eqn:Et; [|contradiction].
      exists text. split; [reflexivity|].
      intros Hnil. unfold verse_step in H. rewrite Et in H.
      cbn [item bind] in H. rewrite Hnil in H. discriminate H.
    + intros [[text [Ht Hparts]] Hr]. unfold verse_step.
      rewrite Ht, Hr. cbn [item bind].
      destruct (split_long_text text) as [|part parts]; [contradiction|].
      reflexivity.
Qed.

Lemma verse_step_succeeds (verse : Verse) :
  verse_text verse <> None -> verse_reference verse <> None ->
  no_highlights verse ->
  forall prs, exists prs', verse_step split_long_text prs verse = Ok prs'.
Proof.
  intros Ht Hr Hh prs. unfold verse_step, bind at 1.
  destruct (verse_text verse) as [text|]; [|contradiction].
  destruct (verse_reference verse) as [reference|]; [|contradiction].
  cbn [item]. apply for_each_succeeds.
  apply Forall_forall. intros [i part] _ s. cbn [bind].
  rewrite (add_verse_slide_plain _ _ _ _ _ Hh). eexists. reflexivity.
Qed.

(** X17. Data whose sections are all readable and whose verses have no
    highlight terms builds without raising. *)
Theorem readable_data_builds (d : Data) (custom_title : option str) :
  Forall (readable custom_title) (get (sections d) []) ->
  Forall (fun section_data =>
            Forall no_highlights (get (section_verses section_data) []))
    (get (sections d) []) ->
  exists prs, build_slides split_long_text d custom_title = Ok prs.
Proof.
  intros Hall Hplain. unfold build_slides.
  assert (Hgo : forall prs0, exists prs,
    for_each (section_step split_long_text custom_title)
      (get (sections d) []) prs0 = Ok prs).
  { apply for_each_succeeds.
    rewrite Forall_forall in *.
    intros section_data Hin prs0.
    specialize (Hall _ Hin). specialize (Hplain _ Hin).
    unfold section_step, readable, has_verses in *.
    destruct (opt_truthy (section_verses section_data)) eqn:Ev;
      [|now exists prs0].
    destruct (Hall eq_refl) as [Hname Hverses].
    destruct (section_verses section_data) as [verses|]; [|discriminate].
    cbn [get] in Hverses, Hplain.
    assert (Hv : forall p, exists p',
      for_each (verse_step split_long_text) verses p = Ok p').
    { apply for_each_succeeds. rewrite Forall_forall in *.
      intros verse Hverse. destruct (Hverses _ Hverse) as [Ht Hrf].
      apply verse_step_succeeds; auto. }
    destruct (opt_truthy custom_title); cbn [negb bind item]; [apply Hv|].
    destruct Hname as [Hbad | Hname]; [discriminate|].
    destruct (section_name section_data) as [name|]; [|contradiction].
    cbn [item bind]. apply Hv. }
  destruct (opt_truthy custom_title); apply Hgo.
Qed.

End Create.

(** *** The file written *)

Lemma starts_with_app (p s : str) : starts_with p (p ++ s) = true.
Proof.
  induction p as [|c p IH]; [reflexivity|].
  cbn [app starts_with]. now rewrite Ascii.eqb_refl.
Qed.

Lemma ends_with_app (p s : str) : ends_with p (s ++ p) = true.
Proof. unfold ends_with. rewrite rev_app_distr. apply starts_with_app. Qed.

Lemma ends_with_ensured (p f : str) :
  ends_with p (if negb (ends_with p f) then f ++ p else f) = true.
Proof.
  destruct (ends_with p f) eqn:E; cbn [negb];
    [exact E | apply ends_with_app].
Qed.

Section Save.

Variable split_long_text : str -> list str.
Variable sanitize_filename : str -> str.
Variable FS : Type.
Variable save : list Slide -> str -> FS -> FS * bool.

(** X18. The name of the file written always ends in [".pptx"], and a given
    name that is not empty and already ends in [".pptx"] is used as it is. *)
Theorem output_name_is_pptx (d : Data) (output_file custom_title : option str) :
  ends_with (py ".pptx")
    (output_name sanitize_filename d output_file custom_title) = true /\
  (forall f,
      output_file = Some f -> truthy f = true ->
      ends_with (py ".pptx") f = true ->
      output_name sanitize_filename d output_file custom_title = f).
Proof.
  unfold output_name. split.
  - cbv zeta. apply ends_with_ensured.
  - intros f -> Hf He. cbn [opt_truthy get negb]. rewrite Hf. cbn [negb].
    now rewrite He.
Qed.

(** X19. A call that returns a file name has built the slides and saved them
    under that name, which ends in [".pptx"]; a call that raises, or that
    returns [None] without a failed save, leaves the file system as it
    was. *)
Theorem create_presentation_outcome (data : option Data)
  (output_file custom_title : option str) (fs fs' : FS)
  (r : result (option str)) (printed : list Message) :
  create_presentation split_long_text sanitize_filename FS save
    data output_file custom_title fs = (r, fs', printed) ->
  match r with
  | Ok (Some f) =>
      ends_with (py ".pptx") f = true /\
      printed = [CreatedSuccessfully f] /\
      exists d prs,
        data = Some d /\
        build_slides split_long_text d custom_title = Ok prs /\
        save prs f fs = (fs', true)
  | Ok None =>
      (fs' = fs /\ printed = [NoDataProvided] /\ data_truthy data = false) \/
      (printed = [ErrorSaving] /\
       exists d prs,
         data = Some d /\
         build_slides split_long_text d custom_title = Ok prs /\
         save prs (output_name sanitize_filename d output_file custom_title)
           fs = (fs', false))
  | Raise e => fs' = fs /\ printed = []
  end.
Proof.
  unfold create_presentation.
  destruct (data_truthy data) eqn:Ed; cbn [negb].
  - destruct data as [d|]; [|discriminate].
    destruct (build_slides split_long_text d custom_title) as [prs|e] eqn:Eb.
    + destruct (save prs _ fs) as [fs1 saved] eqn:Es.
      destruct saved; intros H; injection H as <- <- <-.
      * split; [unfold output_name; cbv zeta; apply ends_with_ensured|].
        split; [reflexivity|]. now exists d, prs.
      * right. split; [reflexivity|]. now exists d, prs.
    + intros H. injection H as <- <- <-. now split.
  - intros H. injection H as <- <- <-. left. now repeat split.
Qed.

End Save.

Lemma output_name_is_pptx_witness :
  output_name (fun s => s) (mkData None None None) (Some (py "deck.pptx"))
    None = py "deck.pptx".
Proof.
  apply (proj2 (output_name_is_pptx (fun s => s) (mkData None None None)
                  (Some (py "deck.pptx")) None) (py "deck.pptx"));
    reflexivity.
Defined.

Lemma create_presentation_outcome_witness :
  ends_with (py ".pptx") (py "Hope.pptx") = true /\
  [CreatedSuccessfully (py "Hope.pptx")] =
  [CreatedSuccessfully (py "Hope.pptx")] /\
  exists d prs,
    Some (mkData (Some (py "Hope")) None None) = Some d /\
    build_slides split_default d None = Ok prs /\
    save_always prs (py "Hope.pptx") [] =
    ([(py "Hope.pptx",
       [TitleSlide (py "Hope") (py "Selected Scriptures")])], true).
Proof.
  apply (create_presentation_outcome split_default (fun s => s)
           (list (str * list Slide)) save_always
           (Some (mkData (Some (py "Hope")) None None)) None None []
           [(py "Hope.pptx",
             [TitleSlide (py "Hope") (py "Selected Scriptures")])]
           (Ok (Some (py "Hope.pptx")))
           [CreatedSuccessfully (py "Hope.pptx")]).
  vm_compute. reflexivity.
Defined.

(** The verse of Deuteronomy 28:68, of 203 characters, which the segmenter
    at its default bound splits into two parts. *)
Lemma long_verse_parts :
  split_default long_verse_text = [long_verse_part1; long_verse_part2].
Proof. vm_compute. reflexivity. Qed.

Lemma verse_slides_numbered_witness :
  exists prs',
    verse_step split_default [] long_verse = Ok prs' /\
    verse_labels prs' =
      [(py "Deut 28:68", Some 1); (py "Deut 28:68", Some 2)] /\
    (verse_text long_verse <> None /\
     exists new, prs' = [] ++ new /\
                 verse_outcome split_default long_verse new).
Proof.
  eexists. split; [vm_compute; reflexivity|].
  split; [vm_compute; reflexivity|].
  apply (verse_slides_numbered split_default [] long_verse).
  vm_compute. reflexivity.
Defined.

Lemma presentation_structure_witness :
  exists prs,
    build_slides split_default two_sections_data None = Ok prs /\
    section_names prs = [py "Law"; py "Gospel"] /\
    verse_labels prs =
      [(py "Deut 28:68", Some 1); (py "Deut 28:68", Some 2);
       (py "John 11:35", None)] /\
    exists rest,
      prs = TitleSlide (py "Hope") (py "Selected Scriptures") :: rest /\
      Forall not_title rest /\
      map Some (section_names prs) = [Some (py "Law"); Some (py "Gospel")] /\
      verse_labels prs =
        all_labels split_default (get (sections two_sections_data) []).
Proof.
  eexists. split; [vm_compute; reflexivity|].
  split; [vm_compute; reflexivity|].
  split; [vm_compute; reflexivity|].
  apply (presentation_structure split_default two_sections_data None).
  vm_compute. reflexivity.
Defined.

(** *** Short verses *)

(** X14. With the segmenter at its default bound, a verse of at most 200
    characters gives, whenever its step returns, exactly one slide, under
    the reference and with no part number; and the step returns when the
    verse has no highlight terms, the text assigned to the paragraph at
    once. *)
Theorem short_verse_one_slide (prs : list Slide) (verse : Verse)
  (text reference : str) :
  verse_text verse = Some text ->
  verse_reference verse = Some reference ->
  len text <= 200 ->
  (forall prs',
      verse_step split_default prs verse = Ok prs' ->
      exists p, prs' = prs ++ [VerseSlide p reference None]) /\
  (no_highlights verse ->
   verse_step split_default prs verse =
   Ok (prs ++ [VerseSlide (Merger.set_text Merger.ascii_line_break 0 text)
                 reference None])).
Proof.
  intros Ht Hr Hlen.
  assert (Hs : split_default text = [text]).
  { unfold split_default, Segmenter.split_long_text,
      Segmenter.default_max_length.
    apply Z.leb_le in Hlen. now rewrite Hlen. }
  assert (Hstep : verse_step split_default prs verse =
                  add_verse_slide prs text reference None
                    (verse_highlights verse)).
  { unfold verse_step. rewrite Ht, Hr. cbn [item bind]. rewrite Hs.
    cbn [enumerate length seq combine for_each bind].
    change (len [text] >? 1) with false. cbn iota.
    now destruct (add_verse_slide prs text reference None
                    (verse_highlights verse)). }
  rewrite Hstep. split.
  - intros prs' H. now apply add_verse_slide_outcome in H.
  - intros Hh. now apply add_verse_slide_plain.
Qed.

Lemma short_verse_one_slide_witness :
  exists p,
    [VerseSlide
       [Merger.RunElement (Merger.mkRun 0 6 (py "Jesus ") Merger.Plain);
        Merger.RunElement (Merger.mkRun 6 10 (py "wept") Merger.Highlight);
        Merger.RunElement (Merger.mkRun 10 11 (py ".") Merger.Plain)]
       (py "John 11:35") None] =
    [] ++ [VerseSlide p (py "John 11:35") None].
Proof.
  apply (proj1 (short_verse_one_slide []
                  (mkVerse (Some (py "John 11:35")) (Some (py "Jesus wept."))
                     (Some [py "wept"]))
                  (py "Jesus wept.") (py "John 11:35")
                  eq_refl eq_refl ltac:(vm_compute; discriminate))).
  vm_compute. reflexivity.
Defined.

Lemma readable_data_builds_witness :
  exists prs,
    build_slides split_default
      (mkData None None
         (Some [mkSectionData None None;
                mkSectionData (Some (py "Psalms"))
                  (Some [mkVerse (Some (py "Ps 23:1"))
                           (Some (py "The LORD is my shepherd")) None])]))
      None = Ok prs.
Proof.
  apply (readable_data_builds split_default).
  - cbn [get sections]. constructor; [|constructor; [|constructor]].
    + intros H. discriminate H.
    + intros _. split; [right; discriminate|].
      cbn [get section_verses]. constructor; [|constructor].
      split; discriminate.
  - cbn [get sections section_verses]. repeat constructor.
Defined.

End BuilderMore.

(** ** The command-line generator *)

Module AppMore.
Import PyStr Builder Observations BuilderMore.

(** *** The file name made from a custom title *)

Lemma lstrip_Forall (P : ascii -> Prop) (s : str) :
  Forall P s -> Forall P (lstrip s).
Proof.
  induction 1 as [|c s Hc Hs IH]; [constructor|]. simpl.
  destruct (isspace c); [exact IH | now constructor].
Qed.

Lemma rstrip_Forall (P : ascii -> Prop) (s : str) :
  Forall P s -> Forall P (rstrip s).
Proof.
  intros H. unfold rstrip. apply Forall_rev, lstrip_Forall, Forall_rev, H.
Qed.

Lemma replace_one_char (a b : ascii) (s : str) :
  replace [a] [b] s = map (fun c => if Ascii.eqb a c then b else c) s.
Proof.
  unfold replace. induction s as [|c s IH]; [reflexivity|].
  cbn [replace_from starts_with length Nat.sub map app].
  rewrite andb_true_r. destruct (Ascii.eqb a c); now rewrite IH.
Qed.


(** X20. The file name made from a custom title holds only letters, digits,
    ['-'] and ['_']: no space, no dot and no path separator. *)
Theorem safe_title_characters (custom_title : str) :
  Forall (fun c => App.isalnum c = true \/ c = "-"%char \/ c = "_"%char)
    (App.safe_title custom_title).
Proof.
  unfold App.safe_title, py. cbn [list_ascii_of_string].
  rewrite replace_one_char. apply Forall_map.
  eapply Forall_impl;
    [|apply rstrip_Forall with (P := fun c => App.title_char c = true)].
  - intros c Hc. destruct (Ascii.eqb " "%char c) eqn:E; [now right; right|].
    unfold App.title_char in Hc.
    apply orb_prop in Hc as [Hc | Hc]; [|right; right; now apply Ascii.eqb_eq].
    apply orb_prop in Hc as [Hc | Hc]; [|right; left; now apply Ascii.eqb_eq].
    apply orb_prop in Hc as [Hc | Hc]; [now left|].
    rewrite Ascii.eqb_sym in Hc. congruence.
  - apply Forall_forall. intros c Hc. now apply filter_In in Hc.
Qed.

(** *** The slides *)

Section Generator.

Variable split_long_text : str -> list str.

Lemma app_parts_loop (verse : Verse) (n : Z) (total : nat)
  (parts : list str) :
  forall k prs prs',
    for_each
      (fun prs (ip : nat * str) =>
         let '(i, part) := ip in
         title <-
           (if n >? 1
            then reference <- item "reference" (verse_reference verse) ;;
                 Ok (reference ++ py " (Part " ++ App.str_of_nat (i + 1) ++
                     py "/" ++ App.str_of_nat total ++ py ")")
            else item "reference" (verse_reference verse)) ;;
         Ok (prs ++ [App.AppVerse title (App.dquote :: part ++ [App.dquote])]))
      (combine (seq k (length parts)) parts) prs = Ok prs' ->
    exists new,
      prs' = prs ++ new /\
      App.section_names new = [] /\
      App.verse_bodies new = map App.quoted parts.
Proof.
  induction parts as [|part parts IH]; intros k prs prs' H.
  - injection H as <-. exists []. now rewrite app_nil_r.
  - cbn [length seq combine for_each] in H. unfold bind at 1 in H.
    destruct (if n >? 1
              then reference <- item "reference" (verse_reference verse) ;;
                   Ok (reference ++ py " (Part " ++ App.str_of_nat (k + 1) ++
                       py "/" ++ App.str_of_nat total ++ py ")")
              else item "reference" (verse_reference verse))
      as [title|e]; cbn [bind] in H; [|discriminate].
    destruct (IH _ _ _ H) as [new (-> & Hs & Hb)].
    exists (App.AppVerse title (App.dquote :: part ++ [App.dquote]) :: new).
    rewrite <- app_assoc. split; [reflexivity|].
    unfold App.section_names, App.verse_bodies in *.
    cbn [flat_map app map]. now rewrite Hs, Hb.
Qed.

(** What the slides added for one section show. *)
Lemma app_section_step_outcome (custom_title : option str)
  (prs : list App.AppSlide) (section_data : SectionData)
  (prs' : list App.AppSlide) :
  App.section_step split_long_text custom_title prs section_data = Ok prs' ->
  exists new,
    prs' = prs ++ new /\
    (map Some (App.section_names new) =
       (if opt_truthy custom_title then [] else [section_name section_data]) /\
     App.verse_bodies new =
       map App.quoted (section_parts split_long_text section_data) /\
     section_verses section_data <> None).
Proof.
  unfold App.section_step, section_parts.
  assert (Hverse : forall p v p',
    App.verse_step split_long_text p v = Ok p' ->
    exists new, p' = p ++ new /\
                (App.section_names new = [] /\
                 App.verse_bodies new =
                 map App.quoted (split_long_text (get (verse_text v) [])))).
  { intros p v p'. unfold App.verse_step, bind at 1.
    destruct (verse_text v) as [text|]; cbn [item get]; [|discriminate].
    unfold enumerate. apply app_parts_loop. }
  assert (Hloop : forall verses prs1,
    for_each (App.verse_step split_long_text) verses prs1 = Ok prs' ->
    exists new, prs' = prs1 ++ new /\ App.section_names new = [] /\
                App.verse_bodies new =
                map App.quoted
                  (flat_map (fun verse =>
                               split_long_text (get (verse_text verse) []))
                     verses)).
  { intros verses prs1 H.
    destruct (for_each_collect _ _ Hverse _ _ _ H) as [news [-> Hall]].
    exists (concat news). split; [reflexivity|].
    clear H. induction Hall as [|v new vs news [Hs Hb] _ [IH1 IH2]];
      [split; reflexivity|].
    unfold App.section_names, App.verse_bodies in *.
    cbn [concat flat_map]. rewrite !flat_map_app, map_app, Hs, Hb, IH1, IH2.
    split; reflexivity. }
  destruct (opt_truthy custom_title); cbn [negb bind].
  - destruct (section_verses section_data) as [verses|]; cbn [item bind get];
      [|discriminate].
    intros H. destruct (Hloop _ _ H) as [new (-> & Hs & Hb)].
    exists new. rewrite Hs. repeat split; [exact Hb | discriminate].
  - destruct (section_name section_data) as [name|]; cbn [item bind];
      [|discriminate].
    destruct (section_verses section_data) as [verses|]; cbn [item bind get];
      [|discriminate].
    intros H. destruct (Hloop _ _ H) as [new (-> & Hs & Hb)].
    rewrite <- app_assoc. exists ([App.AppSection name] ++ new).
    split; [reflexivity|].
    unfold App.section_names, App.verse_bodies in *.
    cbn [app flat_map map]. rewrite Hs, Hb.
    repeat split. discriminate.
Qed.

Lemma app_build_slides_outcome (d : Data) (custom_title : option str)
  (prs : list App.AppSlide) :
  App.build_slides split_long_text d custom_title = Ok prs ->
  map Some (App.section_names prs) =
    (if opt_truthy custom_title then []
     else map section_name (get (sections d) [])) /\
  App.verse_bodies prs =
    map App.quoted (all_parts split_long_text (get (sections d) [])) /\
  Forall (fun section_data => section_verses section_data <> None)
    (get (sections d) []).
Proof.
  unfold App.build_slides. intros H.
  assert (H' : exists title subtitle,
    for_each (App.section_step split_long_text custom_title)
      (get (sections d) []) [App.AppTitle title subtitle] = Ok prs)
    by (destruct (opt_truthy custom_title); eauto).
  clear H. destruct H' as (title & subtitle & H).
  destruct (for_each_collect _ _ (app_section_step_outcome custom_title)
              _ _ _ H) as [news [-> Hall]].
  clear H. unfold App.section_names, App.verse_bodies, all_parts.
  cbn [app flat_map].
  induction Hall as [|sd new l news (Hs & Hb & Hv) _ (IH1 & IH2 & IH3)].
  - destruct (opt_truthy custom_title); repeat split; constructor.
  - unfold App.section_names, App.verse_bodies in *.
    cbn [concat flat_map map].
    rewrite !flat_map_app, !map_app, Hs, Hb, IH1, IH2.
    repeat split; [|now constructor].
    destruct (opt_truthy custom_title); reflexivity.
Qed.

(** X21. A presentation built by the generator has, when no custom title is
    given, one section slide for every section, also for a section whose
    list of verses is empty, and none when a custom title is given; its
    verse slides show, between double quotes, the parts of the verses of
    all sections; and every section has a ['verses'] key. *)
Theorem app_presentation_structure (d : Data) (custom_title : option str)
  (prs : list App.AppSlide) :
  App.build_slides split_long_text d custom_title = Ok prs ->
  map Some (App.section_names prs) =
    (if opt_truthy custom_title then []
     else map section_name (get (sections d) [])) /\
  App.verse_bodies prs =
    map App.quoted (all_parts split_long_text (get (sections d) [])) /\
  Forall (fun section_data => section_verses section_data <> None)
    (get (sections d) []).
Proof.
  unfold App.build_slides. intros H.
  assert (H' : exists title subtitle,
    for_each (App.section_step split_long_text custom_title)
      (get (sections d) []) [App.AppTitle title subtitle] = Ok prs)
    by (destruct (opt_truthy custom_title); eauto).
  clear H. destruct H' as (title & subtitle & H).
  destruct (for_each_collect _ _ (app_section_step_outcome custom_title)
              _ _ _ H) as [news [-> Hall]].
  clear H. unfold App.section_names, App.verse_bodies, all_parts.
  cbn [app flat_map].
  induction Hall as [|sd new l news (Hs & Hb & Hv) _ (IH1 & IH2 & IH3)].
  - destruct (opt_truthy custom_title); repeat split; constructor.
  - unfold App.section_names, App.verse_bodies in *.
    cbn [concat flat_map map].
    rewrite !flat_map_app, !map_app, Hs, Hb, IH1, IH2.
    repeat split; [|now constructor].
    destruct (opt_truthy custom_title); reflexivity.
Qed.

Variable read_json : str -> App.read_outcome.
Variable base_name : str -> str.
Variable FS : Type.
Variable save : list App.AppSlide -> str -> FS -> FS * bool.


End Generator.


Lemma app_presentation_structure_witness :
  map Some
    (App.section_names
       [App.AppTitle (py "Bible Verses Collection") (py "Selected Scriptures");
        App.AppSection (py "Empty")]) =
    map section_name [mkSectionData (Some (py "Empty")) (Some [])] /\
  App.verse_bodies
    [App.AppTitle (py "Bible Verses Collection") (py "Selected Scriptures");
     App.AppSection (py "Empty")] =
    map App.quoted
      (all_parts split_default [mkSectionData (Some (py "Empty")) (Some [])]) /\
  Forall (fun section_data => section_verses section_data <> None)
    [mkSectionData (Some (py "Empty")) (Some [])].
Proof.
  apply (app_presentation_structure split_default
           (mkData None None
              (Some [mkSectionData (Some (py "Empty")) (Some [])])) None
           [App.AppTitle (py "Bible Verses Collection")
              (py "Selected Scriptures");
            App.AppSection (py "Empty")]).
  vm_compute. reflexivity.
Defined.

(** *** The two builders *)

Lemma labels_as_many_as_parts (split_long_text : str -> list str)
  (l : list SectionData) :
  length (all_labels split_long_text l) =
  length (all_parts split_long_text l).
Proof.
  unfold all_labels, all_parts, labels_of_section, section_parts.
  induction l as [|section_data l IH]; [reflexivity|].
  cbn [flat_map]. rewrite !length_app, IH. f_equal.
  induction (get (section_verses section_data) []) as [|verse verses IHv];
    [reflexivity|].
  cbn [flat_map]. rewrite !length_app, IHv. f_equal.
  unfold labels_of_verse, part_numbers.
  now rewrite !length_map, length_seq.
Qed.

Lemma all_parts_ext (f g : str -> list str) (l : list SectionData) :
  (forall text, f text = g text) -> all_parts f l = all_parts g l.
Proof.
  intros Hfg. unfold all_parts, section_parts.
  apply flat_map_ext. intros section_data.
  apply flat_map_ext. intros verse. apply Hfg.
Qed.

(** X22. [create_presentation] takes its splitter from the [utils] module.
    If that splitter gives, for every text, the parts that the splitter of
    [app.py] gives at its default bound, then on data that both builders
    accept [create_presentation] and the generator of [app.py] make the
    same number of verse slides, one for each part of each verse. *)
Theorem builders_make_as_many_verse_slides
  (utils_split_long_text : str -> list str) (d : Data)
  (custom_title : option str) (prs : list Slide)
  (app_prs : list App.AppSlide) :
  (forall text, utils_split_long_text text = split_default text) ->
  build_slides utils_split_long_text d custom_title = Ok prs ->
  App.build_slides split_default d custom_title = Ok app_prs ->
  length (verse_labels prs) = length (App.verse_bodies app_prs) /\
  length (App.verse_bodies app_prs) =
    length (all_parts split_default (get (sections d) [])).
Proof.
  intros Hsame H1 H2.
  destruct (build_slides_outcome utils_split_long_text d custom_title prs H1)
    as (rest & _ & _ & _ & Hl).
  destruct (app_build_slides_outcome split_default d custom_title app_prs H2)
    as (_ & Hb & _).
  rewrite Hl, Hb, length_map, labels_as_many_as_parts.
  now rewrite (all_parts_ext _ _ _ Hsame).
Qed.

Lemma builders_make_as_many_verse_slides_witness :
  exists prs app_prs,
    build_slides split_default two_sections_data None = Ok prs /\
    App.build_slides split_default two_sections_data None = Ok app_prs /\
    length (verse_labels prs) = 3%nat /\
    (length (verse_labels prs) = length (App.verse_bodies app_prs) /\
     length (App.verse_bodies app_prs) =
       length (all_parts split_default
                 (get (sections two_sections_data) []))).
Proof.
  eexists. eexists.
  split; [vm_compute; reflexivity|].
  split; [vm_compute; reflexivity|].
  split; [vm_compute; reflexivity|].
  apply (builders_make_as_many_verse_slides split_default two_sections_data
           None).
  - reflexivity.
  - vm_compute. reflexivity.
  - vm_compute. reflexivity.
Defined.

End AppMore.

(** ** Loading the data *)

Module LoaderMore.
Import PyStr Builder Loader.

(** X24. A dictionary that went through [load_verses_from_dict] has a
    ['sections'] key and so is never taken for missing data, also when it
    was empty; its title, subtitle and sections are unchanged, so it builds
    the same slides; and loading it again changes nothing. *)
Theorem loaded_dict_is_data (d : Data) :
  load_verses_from_dict (PyDict d) = Validated (with_sections d) /\
  sections (with_sections d) <> None /\
  data_truthy (Some (with_sections d)) = true /\
  (forall split_long_text custom_title,
      build_slides split_long_text (with_sections d) custom_title =
      build_slides split_long_text d custom_title) /\
  (forall split_long_text sanitize_filename FS save output_file custom_title
          (fs : FS),
      snd (create_presentation split_long_text sanitize_filename FS save
             (Some (with_sections d)) output_file custom_title fs)
      <> [NoDataProvided]) /\
  load_verses_from_dict (PyDict (with_sections d)) =
  Validated (with_sections d).
Proof.
  assert (Hs : sections (with_sections d) <> None)
    by (unfold with_sections; destruct (sections d) eqn:E;
        [rewrite E|]; discriminate).
  assert (Ht : data_truthy (Some (with_sections d)) = true).
  { cbn [data_truthy].
    destruct (sections (with_sections d)); [|contradiction].
    destruct (presentation_title (with_sections d)),
      (presentation_subtitle (with_sections d)); reflexivity. }
  split; [reflexivity|]. split; [exact Hs|]. split; [exact Ht|].
  split; [|split].
  - intros split_long_text custom_title.
    unfold with_sections. destruct d as [t s [l|]]; reflexivity.
  - intros split_long_text sanitize_filename FS save output_file custom_title
      fs.
    unfold create_presentation. rewrite Ht. cbn [negb].
    destruct (build_slides _ _ _); [|discriminate].
    destruct (save _ _ fs) as [fs' saved]. destruct saved; discriminate.
  - cbn [load_verses_from_dict]. f_equal.
    unfold with_sections at 1.
    destruct (sections (with_sections d)); [reflexivity | contradiction].
Qed.

(** X25. [load_verses_from_file] returns data exactly when the file parses to an
    object that [load_verses_from_dict] accepts, and then the same data;
    in every other case it returns [None] and prints one line. *)
Theorem file_loader_agrees (read_json : str -> file_outcome) (filepath : str) :
  fst (load_verses_from_file read_json filepath) =
    match read_json filepath with
    | Loaded data =>
        match load_verses_from_dict data with
        | Validated d => Some d
        | ValueError => None
        end
    | _ => None
    end /\
  (fst (load_verses_from_file read_json filepath) = None ->
   length (snd (load_verses_from_file read_json filepath)) = 1%nat).
Proof.
  unfold load_verses_from_file.
  destruct (read_json filepath) as [| | |[d|]]; try (split; reflexivity).
  cbn [load_verses_from_dict]. unfold with_sections.
  destruct (sections d); split; try reflexivity; discriminate.
Qed.

Lemma file_loader_agrees_witness :
  length (snd (load_verses_from_file (fun _ => InvalidJSON) (py "v.json")))
  = 1%nat.
Proof.
  apply (proj2 (file_loader_agrees (fun _ => InvalidJSON) (py "v.json"))).
  reflexivity.
Defined.

End LoaderMore.

(** ** The MIME type of an uploaded file *)

Module GDriveMore.
Import PyStr GDrive PyStrFacts.

Lemma str_eqb_eq (s t : str) : str_eqb s t = true <-> s = t.
Proof.
  revert t. induction s as [|a s IH]; intros [|b t]; simpl;
    try (split; [discriminate | discriminate]); [tauto|].
  rewrite andb_true_iff, Ascii.eqb_eq, IH.
  split; [intros [-> ->]; reflexivity | intros H; now injection H].
Qed.

Lemma split_at_sep (sep : ascii) (a b : str) :
  split sep (a ++ sep :: b) = split sep a ++ split sep b.
Proof.
  induction a as [|c a IH]; cbn [app split].
  - now rewrite Ascii.eqb_refl.
  - rewrite IH. destruct (Ascii.eqb c sep); [reflexivity|].
    pose proof (SegmenterMore.split_length sep a) as Hlen.
    destruct (split sep a); [simpl in Hlen; lia | reflexivity].
Qed.

Lemma split_without_sep (sep : ascii) (s : str) :
  ~ In sep s -> split sep s = [s].
Proof.
  induction s as [|c s IH]; intros Hno; [reflexivity|].
  cbn [split]. destruct (Ascii.eqb c sep) eqn:E.
  - apply Ascii.eqb_eq in E. subst. exfalso. apply Hno. now left.
  - rewrite IH; [reflexivity|]. intros H. apply Hno. now right.
Qed.

(** The name of a file in a directory is the file's name. *)
Lemma path_name_of_file (dir name : str) :
  dir = [] \/ (exists d, dir = d ++ ["/"%char]) ->
  ~ In "/"%char name -> name <> [] -> name <> py "." ->
  path_name (dir ++ name) = name.
Proof.
  intros Hdir Hno Hne Hdot. unfold path_name.
  assert (Hkeep : negb (str_eqb name []) && negb (str_eqb name (py ".")) = true).
  { destruct (str_eqb name []) eqn:E1;
      [apply str_eqb_eq in E1; contradiction|].
    destruct (str_eqb name (py ".")) eqn:E2;
      [apply str_eqb_eq in E2; contradiction | reflexivity]. }
  destruct Hdir as [-> | [d ->]].
  - cbn [app]. rewrite (split_without_sep _ _ Hno). cbn [filter].
    now rewrite Hkeep.
  - rewrite <- app_assoc. cbn [app].
    rewrite split_at_sep, (split_without_sep _ _ Hno), filter_app.
    cbn [filter]. rewrite Hkeep. apply last_last.
Qed.

Lemma rfind_from_app (c : ascii) (a b : str) :
  forall pos found,
    rfind_from c (a ++ b) pos found =
    rfind_from c b (pos + len a) (rfind_from c a pos found).
Proof.
  induction a as [|x a IH]; intros pos found; cbn [app rfind_from].
  - change (len (@nil ascii)) with 0. now rewrite Z.add_0_r.
  - rewrite IH. f_equal. unfold len. cbn [length]. lia.
Qed.

Lemma rfind_from_absent (c : ascii) (s : str) :
  ~ In c s -> forall pos found, rfind_from c s pos found = found.
Proof.
  induction s as [|x s IH]; intros Hno pos found; [reflexivity|].
  cbn [rfind_from]. destruct (Ascii.eqb x c) eqn:E.
  - apply Ascii.eqb_eq in E. subst. exfalso. apply Hno. now left.
  - apply IH. intros H. apply Hno. now right.
Qed.

Lemma lower_is_dot (c : ascii) : Merger.lower c = "."%char -> c = "."%char.
Proof.
  destruct c as [b0 b1 b2 b3 b4 b5 b6 b7].
  destruct b0, b1, b2, b3, b4, b5, b6, b7;
    vm_compute; intros H; solve [reflexivity | discriminate H].
Qed.

(** An extension that is [".pptx"] up to case is a dot followed by four
    characters that are neither dots nor separators. *)
Lemma pptx_extension (ext : str) :
  str_lower ext = py ".pptx" ->
  exists rest, ext = "."%char :: rest /\ length rest = 4%nat /\
               ~ In "."%char rest /\ ~ In "/"%char rest.
Proof.
  unfold str_lower, py. cbn [list_ascii_of_string].
  destruct ext as [|c0 [|c1 [|c2 [|c3 [|c4 [|c5 ext]]]]]];
    cbn [map]; try discriminate.
  intros H. injection H as H0 H1 H2 H3 H4.
  apply lower_is_dot in H0. subst c0.
  exists [c1; c2; c3; c4]. split; [reflexivity|]. split; [reflexivity|].
  split; intros Hin; cbn [In] in Hin;
    repeat (destruct Hin as [Hin | Hin];
            [subst; vm_compute in H1, H2, H3, H4; discriminate|]);
    exact Hin.
Qed.

(** X26. A file whose name is a stem, not empty, followed by [".pptx"] in any
    case has the PowerPoint MIME type, in any directory. *)
Theorem pptx_file_mime_type (dir stem ext : str) :
  dir = [] \/ (exists d, dir = d ++ ["/"%char]) ->
  stem <> [] ->
  ~ In "/"%char stem ->
  str_lower ext = py ".pptx" ->
  _get_mime_type (dir ++ stem ++ ext) =
  py "application/vnd.openxmlformats-officedocument.presentationml.presentation".
Proof.
  intros Hdir Hstem Hno Hext.
  destruct (pptx_extension ext Hext) as (rest & -> & Hlen & Hdot & Hsep).
  unfold _get_mime_type, path_suffix.
  rewrite (path_name_of_file dir (stem ++ "."%char :: rest)).
  - unfold rfind. rewrite rfind_from_app. cbn [rfind_from].
    rewrite (rfind_from_absent _ _ Hdot). cbn [Ascii.eqb Bool.eqb].
    pose proof (len_nonneg stem).
    assert (0 < len stem) by (destruct stem; [contradiction|];
                               unfold len; cbn [length]; lia).
    assert (Hl : len ("."%char :: rest) = 5)
      by (unfold len; cbn [length]; rewrite Hlen; reflexivity).
    rewrite len_app, Hl, Z.add_0_l.
    replace ((0 <? len stem) && (len stem <? len stem + 5 - 1)) with true
      by (symmetry; apply andb_true_iff; split; apply Z.ltb_lt; lia).
    change (len stem + 5) with (len stem + Z.of_nat 5).
    rewrite (MergerTheorems.slice_after_prefix stem ("."%char :: rest) 5).
    rewrite firstn_all2 by (cbn [length]; lia).
    rewrite Hext. vm_compute. reflexivity.
  - exact Hdir.
  - intros Hin. apply in_app_or in Hin as [Hin | [Hin | Hin]];
      [now apply Hno | discriminate | now apply Hsep].
  - destruct stem; [contradiction | discriminate].
  - destruct stem as [|c [|c' stem']]; [contradiction | | discriminate].
    cbn [app]. destruct rest; [discriminate Hlen | discriminate].
Qed.

Lemma pptx_file_mime_type_witness :
  _get_mime_type (py "out/" ++ py "My Deck" ++ py ".PPTX") =
  py "application/vnd.openxmlformats-officedocument.presentationml.presentation".
Proof.
  apply (pptx_file_mime_type (py "out/") (py "My Deck") (py ".PPTX")).
  - right. exists (py "out"). reflexivity.
  - discriminate.
  - intros H. vm_compute in H.
    repeat (destruct H as [H | H]; [discriminate H|]). exact H.
  - vm_compute. reflexivity.
Defined.

(** X27. A name that starts with its only dot has no suffix: such a file, like
    [".pptx"] itself, gets the default MIME type. *)
Theorem leading_dot_is_no_suffix (dir name : str) :
  dir = [] \/ (exists d, dir = d ++ ["/"%char]) ->
  name <> [] ->
  ~ In "/"%char name ->
  ~ In "."%char name ->
  _get_mime_type (dir ++ "."%char :: name) = py "application/octet-stream".
Proof.
  intros Hdir Hne Hsep Hdot.
  unfold _get_mime_type, path_suffix.
  rewrite (path_name_of_file dir ("."%char :: name)).
  - unfold rfind. cbn [rfind_from Ascii.eqb Bool.eqb].
    rewrite (rfind_from_absent _ _ Hdot). reflexivity.
  - exact Hdir.
  - intros [Hin | Hin]; [discriminate | now apply Hsep].
  - discriminate.
  - destruct name; [contradiction | discriminate].
Qed.

Lemma leading_dot_is_no_suffix_witness :
  _get_mime_type ([] ++ "."%char :: py "pptx") = py "application/octet-stream".
Proof.
  apply (leading_dot_is_no_suffix [] (py "pptx")).
  - now left.
  - discriminate.
  - intros H. vm_compute in H.
    repeat (destruct H as [H | H]; [discriminate H|]). exact H.
  - intros H. vm_compute in H.
    repeat (destruct H as [H | H]; [discriminate H|]). exact H.
Defined.

End GDriveMore.
